(** * stripe-mcp: the fraud recommendation evaluator, its caller and the
      log sanitizer

    A shallow embedding of [src/index.ts] (the tool handlers,
    [buildFraudInsight], the [summarize*] mappers and
    [deriveRecommendation]) and of [sanitizeContext] from the logger module.

    Conventions of the embedding.
    - A JavaScript [string] is a [string]; a value typed [T | null] or
      [T | undefined] (or an optional field) is an [option T].
    - The numbers the code handles (amounts, timestamps, Radar risk scores)
      are integers on the Stripe API; they are modelled as [Z].
    - An expandable Stripe reference ([string | T]) is an [Expandable T].
    - Data that the code only passes through (metadata, payment method
      details, customer, last response) is an opaque [JsValue].
    - [await]ed Stripe calls are effects: they run against an abstract
      upstream [World], may throw, and are recorded in a trace together with
      the logger calls and the invocations of the evaluator. *)

From Stdlib Require Import String Ascii List ZArith Bool Lia Permutation.
From Stdlib Require Import DecimalString DecimalZ.
Import ListNotations.
Local Open Scope string_scope.
Local Open Scope Z_scope.

(** ** JavaScript values *)

(** JSON-like values: what a log context holds, and the carrier of data the
    handlers pass through untouched. An object is the list of its own
    enumerable properties in enumeration order. *)
#[warnings="-register-all"]
Inductive JsValue : Type :=
| JsUndefined
| JsNull
| JsBool (b : bool)
| JsNumber (n : Z)
| JsString (s : string)
| JsArray (items : list JsValue)
| JsObject (entries : list (string * JsValue)).

Definition JsObj : Type := list (string * JsValue).

(** Truthiness of an optional string: [undefined], [null] and the empty
    string are falsy. *)
Definition truthy (s : option string) : bool :=
  match s with
  | Some s => negb (s =? "")%string
  | None => false
  end.

(** [x ?? d] *)
Definition nullish {A : Type} (x : option A) (d : A) : A :=
  match x with
  | Some a => a
  | None => d
  end.

(** [`${n}`] for an integer [n]. *)
Definition showZ (n : Z) : string := NilZero.string_of_int (Z.to_int n).

(** ** Stripe objects *)

Inductive Expandable (A : Type) : Type :=
| ExpId (id : string)
| ExpObject (obj : A).
Arguments ExpId {A} id.
Arguments ExpObject {A} obj.

(** An expanded object of which the code reads the [id] only. *)
Record Ref : Type := mkRef { ref_id : string }.

Record Outcome : Type := mkOutcome {
  network_status : option string;
  outcome_reason : option string;
  risk_level : option string;
  risk_score : option Z;
  seller_message : option string;
  outcome_type : option string
}.

Record Review : Type := mkReview {
  review_id : string;
  review_open : bool;
  review_reason : option string;
  review_created : Z;
  closed_reason : option string
}.

Record Refund : Type := mkRefund {
  refund_id : string;
  refund_amount : Z;
  refund_currency : string;
  refund_status : option string;
  refund_reason : option string;
  refund_created : Z;
  refund_charge : option (Expandable Ref);
  refund_payment_intent : option (Expandable Ref)
}.

Record Dispute : Type := mkDispute {
  dispute_id : string;
  dispute_amount : Z;
  dispute_currency : string;
  dispute_status : string;
  dispute_reason : option string;
  dispute_created : Z;
  dispute_charge : option (Expandable Ref);
  dispute_payment_intent : option (Expandable Ref)
}.

Record EarlyFraudWarning : Type := mkEarlyFraudWarning {
  efw_id : string;
  actionable : bool;
  fraud_type : string;
  efw_created : Z;
  efw_charge : Expandable Ref;
  efw_payment_intent : option (Expandable Ref)
}.

#[warnings="-register-all"]
Inductive Charge : Type := mkCharge {
  charge_id : string;
  charge_amount : Z;
  captured : bool;
  paid : bool;
  charge_currency : string;
  refunded : bool;
  disputed : bool;
  charge_status : option string;
  outcome : option Outcome;
  metadata : JsValue;
  payment_method_details : option JsValue;
  review : option (Expandable Review);
  receipt_url : option string;
  charge_payment_intent : option (Expandable PaymentIntent);
  refunds : option (list Refund)
}
with PaymentIntent : Type := mkPaymentIntent {
  pi_id : string;
  pi_amount : Z;
  amount_capturable : Z;
  amount_received : Z;
  pi_currency : string;
  pi_status : string;
  customer : JsValue;
  pi_created : Z;
  confirmation_method : string;
  payment_method_types : list string;
  latest_charge : option (Expandable Charge)
}.

(** ** The recommendation *)

Inductive FraudAction : Type := refund | manual_review | monitor.

Record FraudRecommendation : Type := mkRecommendation {
  action : FraudAction;
  reason : string
}.

(** [earlyFraudWarnings.some((warning) => warning.actionable)] *)
Definition some {A : Type} (p : A -> bool) (l : list A) : bool := existsb p l.

Definition dispute_reason_text : string :=
  "Existing dispute detected. Prefer immediate refund to reduce losses.".
Definition warning_reason_text : string :=
  "Actionable Radar early fraud warning present. Stripe recommends refunding.".
Definition elevated_reason_text : string :=
  "Elevated risk level. Review supporting evidence before issuing refund.".
Definition monitor_reason_text : string :=
  "No disputes or actionable warnings. Monitor the transaction for future signals.".

(** [`High risk detected (level: ${riskLevel ?? 'n/a'}, score: ${riskScore}).`] *)
Definition high_risk_reason (riskLevel : option string) (riskScore : Z) : string :=
  "High risk detected (level: " ++ nullish riskLevel "n/a" ++ ", score: "
    ++ showZ riskScore ++ ").".

(** [charge.outcome?.risk_level ?? null] *)
Definition riskLevelOf (charge : Charge) : option string :=
  match outcome charge with
  | Some o => risk_level o
  | None => None
  end.

(** [charge.outcome?.risk_score ?? 0] *)
Definition riskScoreOf (charge : Charge) : Z :=
  match outcome charge with
  | Some o => nullish (risk_score o) 0
  | None => 0
  end.

(** [riskLevel === 'highest'] on a nullable string *)
Definition level_is (riskLevel : option string) (name : string) : bool :=
  match riskLevel with
  | Some l => (l =? name)%string
  | None => false
  end.

Definition deriveRecommendation
    (charge : Charge)
    (earlyFraudWarnings : list EarlyFraudWarning)
    (disputes : list Dispute) : FraudRecommendation :=
  if (0 <? Z.of_nat (length disputes)) then
    {| action := refund; reason := dispute_reason_text |}
  else if some actionable earlyFraudWarnings then
    {| action := refund; reason := warning_reason_text |}
  else
    let riskLevel := riskLevelOf charge in
    let riskScore := riskScoreOf charge in
    if level_is riskLevel "highest" || (75 <=? riskScore) then
      {| action := refund; reason := high_risk_reason riskLevel riskScore |}
    else if level_is riskLevel "elevated" || (50 <=? riskScore) then
      {| action := manual_review; reason := elevated_reason_text |}
    else
      {| action := monitor; reason := monitor_reason_text |}.

(** ** Summaries returned to the client *)

Record PaymentIntentSummary : Type := mkPaymentIntentSummary {
  pis_id : string;
  pis_amount : Z;
  pis_amount_capturable : Z;
  pis_amount_received : Z;
  pis_currency : string;
  pis_status : string;
  pis_customer : JsValue;
  pis_created : Z;
  pis_confirmation_method : string;
  pis_payment_method_types : list string
}.

Record ChargeSummary : Type := mkChargeSummary {
  cs_id : string;
  cs_amount : Z;
  cs_captured : bool;
  cs_paid : bool;
  cs_currency : string;
  cs_refunded : bool;
  cs_disputed : bool;
  cs_status : option string;
  cs_outcome : option Outcome;
  cs_metadata : JsValue;
  cs_payment_method_details : option JsValue;
  cs_review_id : option string;
  cs_receipt_url : option string
}.

Record EarlyFraudWarningSummary : Type := mkEarlyFraudWarningSummary {
  es_id : string;
  es_actionable : bool;
  es_fraud_type : string;
  es_created : Z;
  es_charge : string;
  es_payment_intent : option string
}.

Record ReviewSummary : Type := mkReviewSummary {
  rvs_id : string;
  rvs_open : bool;
  rvs_reason : option string;
  rvs_created : Z;
  rvs_closed_reason : option string
}.

Record DisputeSummary : Type := mkDisputeSummary {
  ds_id : string;
  ds_amount : Z;
  ds_currency : string;
  ds_status : string;
  ds_reason : option string;
  ds_created : Z;
  ds_charge : option string;
  ds_payment_intent : option string
}.

Record RefundSummary : Type := mkRefundSummary {
  rfs_id : string;
  rfs_amount : Z;
  rfs_currency : string;
  rfs_status : option string;
  rfs_reason : option string;
  rfs_created : Z;
  rfs_charge : option string;
  rfs_payment_intent : option string
}.

Record RadarInsight : Type := mkRadarInsight {
  early_fraud_warnings : list EarlyFraudWarningSummary;
  reviews : list ReviewSummary;
  radar_disputes : list DisputeSummary;
  radar_refunds : list RefundSummary;
  radar_risk_level : option string;
  radar_risk_score : option Z;
  radar_outcome_type : option string;
  radar_seller_message : option string
}.

Record FraudInsightResult : Type := mkFraudInsightResult {
  result_paymentIntent : option PaymentIntentSummary;
  result_charge : option ChargeSummary;
  result_radar : option RadarInsight;
  recommendation : FraudRecommendation
}.

(** [typeof x === 'string' ? x : x.id] *)
Definition id_of (x : Expandable Ref) : string :=
  match x with
  | ExpId s => s
  | ExpObject r => ref_id r
  end.

(** [x && typeof x === 'object' ? x.id : (x as string | null) ?? null], and
    [typeof x === 'string' ? x : x?.id ?? null], which agree. *)
Definition id_of_opt (x : option (Expandable Ref)) : option string :=
  option_map id_of x.

Definition summarizeReview (data : Review) : ReviewSummary :=
  {| rvs_id := review_id data;
     rvs_open := review_open data;
     rvs_reason := review_reason data;
     rvs_created := review_created data;
     rvs_closed_reason := closed_reason data |}.

Definition summarizeEarlyFraudWarning (warning : EarlyFraudWarning)
  : EarlyFraudWarningSummary :=
  {| es_id := efw_id warning;
     es_actionable := actionable warning;
     es_fraud_type := fraud_type warning;
     es_created := efw_created warning;
     es_charge := id_of (efw_charge warning);
     es_payment_intent :=
       match efw_payment_intent warning with
       | Some (ExpId s) => if (s =? "")%string then None else Some s
       | Some (ExpObject r) => Some (ref_id r)
       | None => None
       end |}.

Definition summarizeDispute (dispute : Dispute) : DisputeSummary :=
  {| ds_id := dispute_id dispute;
     ds_amount := dispute_amount dispute;
     ds_currency := dispute_currency dispute;
     ds_status := dispute_status dispute;
     ds_reason := dispute_reason dispute;
     ds_created := dispute_created dispute;
     ds_charge := id_of_opt (dispute_charge dispute);
     ds_payment_intent := id_of_opt (dispute_payment_intent dispute) |}.

Definition summarizeRefund (r : Refund) : RefundSummary :=
  {| rfs_id := refund_id r;
     rfs_amount := refund_amount r;
     rfs_currency := refund_currency r;
     rfs_status := refund_status r;
     rfs_reason := refund_reason r;
     rfs_created := refund_created r;
     rfs_charge := id_of_opt (refund_charge r);
     rfs_payment_intent := id_of_opt (refund_payment_intent r) |}.

Definition summarizePaymentIntent (paymentIntent : PaymentIntent)
  : PaymentIntentSummary :=
  {| pis_id := pi_id paymentIntent;
     pis_amount := pi_amount paymentIntent;
     pis_amount_capturable := amount_capturable paymentIntent;
     pis_amount_received := amount_received paymentIntent;
     pis_currency := pi_currency paymentIntent;
     pis_status := pi_status paymentIntent;
     pis_customer := customer paymentIntent;
     pis_created := pi_created paymentIntent;
     pis_confirmation_method := confirmation_method paymentIntent;
     pis_payment_method_types := payment_method_types paymentIntent |}.

Definition summarizeCharge (charge : Charge) : ChargeSummary :=
  {| cs_id := charge_id charge;
     cs_amount := charge_amount charge;
     cs_captured := captured charge;
     cs_paid := paid charge;
     cs_currency := charge_currency charge;
     cs_refunded := refunded charge;
     cs_disputed := disputed charge;
     cs_status := charge_status charge;
     cs_outcome := outcome charge;
     cs_metadata := metadata charge;
     cs_payment_method_details := payment_method_details charge;
     cs_review_id :=
       match review charge with
       | Some (ExpObject r) => Some (review_id r)
       | Some (ExpId s) => Some s
       | None => None
       end;
     cs_receipt_url := receipt_url charge |}.

(** ** Tool inputs and outputs *)

Record FraudInsightInput : Type := mkFraudInsightInput {
  payment_intent_id : option string;
  charge_id_in : option string;
  include_events : bool
}.

Inductive RefundReason : Type := duplicate | fraudulent | requested_by_customer.

Record RefundInput : Type := mkRefundInput {
  refund_in_payment_intent_id : option string;
  refund_in_charge_id : option string;
  refund_in_amount : option Z;
  refund_in_reason : option RefundReason;
  refund_in_metadata : option (list (string * string))
}.

Record RefundCreateParams : Type := mkRefundCreateParams {
  params_payment_intent : option string;
  params_charge : option string;
  params_amount : option Z;
  params_reason : option RefundReason;
  params_metadata : option (list (string * string))
}.

Record RefundResponse : Type := mkRefundResponse {
  response_refund : Refund;
  lastResponse : JsValue
}.

Record FraudToolResult : Type := mkFraudToolResult {
  fraud_text : string;
  fraud_structuredContent : FraudInsightResult
}.

Record RefundToolResult : Type := mkRefundToolResult {
  refund_text : string;
  structured_refund : Refund;
  structured_last_response : JsValue
}.

(** ** Effects: upstream calls, exceptions and the trace *)

Inductive LogLevel : Type := debug | info | warn | error.

(** What a rejected promise or a [throw] carries. *)
Inductive Thrown : Type :=
| JsError (message : string)
| UpstreamError (e : JsValue).

(** The Stripe requests the handlers issue, with their arguments. *)
Inductive ApiCall : Type :=
| PaymentIntentsRetrieve (id : string) (expand : list string)
| ChargesRetrieve (id : string) (expand : list string)
| ChargesList (payment_intent : string) (limit : Z) (expand : list string)
| EarlyFraudWarningsList (charge : string)
| ReviewsRetrieve (id : string)
| DisputesList (charge : string) (limit : Z)
| RefundsList (charge : string) (limit : Z)
| RefundsCreate (params : RefundCreateParams).

(** The observable trace of a handler run: logger calls (level and
    message; the context payloads are not modelled), Stripe requests, and a
    mark for each invocation of [deriveRecommendation] with its arguments.
    The mark is instrumentation: the source function itself has no effect.
    Since a logger call is kept without its context, equal traces do not
    mean equal log lines: runs are compared by their traces only where the
    logged contexts cannot differ. *)
Inductive Event : Type :=
| EvLog (level : LogLevel) (message : string)
| EvCall (c : ApiCall)
| EvDerive (charge : Charge) (earlyFraudWarnings : list EarlyFraudWarning)
           (disputes : list Dispute).

Definition is_call (e : Event) : bool :=
  match e with
  | EvCall _ => true
  | _ => false
  end.

(** No [DisputesList] request, and every recorded evaluator invocation got
    the empty dispute list. *)
Definition disputes_untouched (e : Event) : bool :=
  match e with
  | EvCall (DisputesList _ _) => false
  | EvDerive _ _ (_ :: _) => false
  | _ => true
  end.

Definition newline : string := String (ascii_of_nat 10) EmptyString.

(** [lines.join('\n')] *)
Fixpoint join (sep : string) (lines : list string) : string :=
  match lines with
  | [] => ""
  | [l] => l
  | l :: rest => l ++ sep ++ join sep rest
  end.

(** [action.toUpperCase()] on the three action labels *)
Definition action_upper (a : FraudAction) : string :=
  match a with
  | refund => "REFUND"
  | manual_review => "MANUAL_REVIEW"
  | monitor => "MONITOR"
  end.

(** An expandable reference interpolated into a template string. *)
Definition show_expandable (x : Expandable Ref) : string :=
  match x with
  | ExpId s => s
  | ExpObject _ => "[object Object]"
  end.

(** [x] if it is a truthy string, for [if (x) { ... x ... }]. *)
Definition as_truthy (s : option string) : option string :=
  if truthy s then s else None.

Definition expand_latest_charge : list string :=
  ["latest_charge"; "latest_charge.outcome"; "latest_charge.review";
   "latest_charge.payment_method_details"; "latest_charge.refunds"].

Definition expand_charge : list string :=
  ["outcome"; "review"; "payment_intent"; "payment_method_details"; "refunds"].

Definition expand_charge_list : list string :=
  ["data.outcome"; "data.review"; "data.payment_method_details"].

Definition missing_ids_fraud_message : string :=
  "You must provide either payment_intent_id or charge_id to retrieve fraud insights.".

Definition missing_ids_refund_message : string :=
  "You must provide either payment_intent_id or charge_id to create a refund.".

Definition no_charge_reason_text : string :=
  "No charge details available. Review manually before taking action.".

Definition baseline_recommendation : FraudRecommendation :=
  {| action := monitor;
     reason := "Baseline recommendation before risk analysis." |}.

Definition no_charge_recommendation : FraudRecommendation :=
  {| action := manual_review; reason := no_charge_reason_text |}.

Definition set_paymentIntent (r : FraudInsightResult) (v : PaymentIntentSummary)
  : FraudInsightResult :=
  {| result_paymentIntent := Some v;
     result_charge := result_charge r;
     result_radar := result_radar r;
     recommendation := recommendation r |}.

Definition set_charge (r : FraudInsightResult) (v : ChargeSummary)
  : FraudInsightResult :=
  {| result_paymentIntent := result_paymentIntent r;
     result_charge := Some v;
     result_radar := result_radar r;
     recommendation := recommendation r |}.

Definition set_radar (r : FraudInsightResult) (v : RadarInsight)
  : FraudInsightResult :=
  {| result_paymentIntent := result_paymentIntent r;
     result_charge := result_charge r;
     result_radar := Some v;
     recommendation := recommendation r |}.

Definition set_recommendation (r : FraudInsightResult) (v : FraudRecommendation)
  : FraudInsightResult :=
  {| result_paymentIntent := result_paymentIntent r;
     result_charge := result_charge r;
     result_radar := result_radar r;
     recommendation := v |}.

(** The local variables [result], [paymentIntent] and [charge] of
    [buildFraudInsight]. *)
Record Locals : Type := mkLocals {
  l_result : FraudInsightResult;
  l_paymentIntent : option PaymentIntent;
  l_charge : option Charge
}.

Section Effects.

(** The state of the upstream Stripe account, as far as the client sees. *)
Variable World : Type.

(** [JSON.stringify(insight, null, 2)] *)
Variable JSON_stringify : FraudInsightResult -> string.

Record State : Type := mkState {
  world : World;
  trace : list Event
}.

(** An [async] computation: it reads and changes the upstream world,
    extends the trace, and either returns or throws. *)
Definition M (A : Type) : Type := State -> (Thrown + A) * State.

Definition ret {A : Type} (a : A) : M A := fun s => (inr a, s).

Definition bind {A B : Type} (m : M A) (k : A -> M B) : M B :=
  fun s =>
    match m s with
    | (inr a, s') => k a s'
    | (inl e, s') => (inl e, s')
    end.

Definition throw {A : Type} (e : Thrown) : M A := fun s => (inl e, s).

(** [try { m } catch (error) { h error }] *)
Definition try_catch {A : Type} (m : M A) (h : Thrown -> M A) : M A :=
  fun s =>
    match m s with
    | (inr a, s') => (inr a, s')
    | (inl e, s') => h e s'
    end.

Definition emit (ev : Event) : M unit :=
  fun s => (inr tt, {| world := world s; trace := (trace s ++ [ev])%list |}).

Definition log (level : LogLevel) (message : string) : M unit :=
  emit (EvLog level message).

(** [await] of one Stripe request. *)
Definition call {A : Type} (c : ApiCall)
    (request : World -> (Thrown + A) * World) : M A :=
  fun s =>
    let (r, w) := request (world s) in
    (r, {| world := w; trace := (trace s ++ [EvCall c])%list |}).

(** The Stripe SDK client, as the handlers use it. A list endpoint
    returns the [data] array of its page. *)
Record Stripe : Type := mkStripe {
  paymentIntents_retrieve :
    string -> list string -> World -> (Thrown + PaymentIntent) * World;
  charges_retrieve :
    string -> list string -> World -> (Thrown + Charge) * World;
  charges_list :
    string -> Z -> list string -> World -> (Thrown + list Charge) * World;
  radar_earlyFraudWarnings_list :
    string -> World -> (Thrown + list EarlyFraudWarning) * World;
  reviews_retrieve : string -> World -> (Thrown + Review) * World;
  disputes_list : string -> Z -> World -> (Thrown + list Dispute) * World;
  refunds_list : string -> Z -> World -> (Thrown + list Refund) * World;
  refunds_create :
    RefundCreateParams -> World -> (Thrown + RefundResponse) * World
}.

Notation "x <- m ;; k" := (bind m (fun x => k))
  (at level 100, m at next level, right associativity).
Notation "m ;; k" := (bind m (fun _ => k))
  (at level 100, right associativity).

(** The first part of [buildFraudInsight], up to the test [if (charge)]:
    it resolves [paymentIntent] and [charge] from the identifiers. *)
Definition resolveCharge (stripe : Stripe) (input : FraudInsightInput)
  : M Locals :=
  log debug "Building fraud insight" ;;
  let vars :=
    {| l_result :=
         {| result_paymentIntent := None;
            result_charge := None;
            result_radar := None;
            recommendation := baseline_recommendation |};
       l_paymentIntent := None;
       l_charge := None |} in
  (* if (input.payment_intent_id) *)
  vars <-
    match as_truthy (payment_intent_id input) with
    | Some id =>
        log debug "Retrieving PaymentIntent" ;;
        paymentIntent <-
          call (PaymentIntentsRetrieve id expand_latest_charge)
               (paymentIntents_retrieve stripe id expand_latest_charge) ;;
        let result :=
          set_paymentIntent (l_result vars)
                            (summarizePaymentIntent paymentIntent) in
        log debug "PaymentIntent retrieved" ;;
        match latest_charge paymentIntent with
        | Some (ExpObject charge) =>
            ret (mkLocals result (Some paymentIntent) (Some charge))
        | Some (ExpId latest) =>
            log debug "Fetching latest charge by ID" ;;
            charge <-
              call (ChargesRetrieve latest expand_charge)
                   (charges_retrieve stripe latest expand_charge) ;;
            ret (mkLocals result (Some paymentIntent) (Some charge))
        | None =>
            ret (mkLocals result (Some paymentIntent) (l_charge vars))
        end
    | None => ret vars
    end ;;
  (* if (input.charge_id) *)
  vars <-
    match as_truthy (charge_id_in input) with
    | Some id =>
        log debug "Retrieving Charge" ;;
        charge <-
          call (ChargesRetrieve id expand_charge)
               (charges_retrieve stripe id expand_charge) ;;
        let result := set_charge (l_result vars) (summarizeCharge charge) in
        log debug "Charge retrieved" ;;
        match charge_payment_intent charge, l_paymentIntent vars with
        | Some (ExpId pid), None =>
            if (pid =? "")%string then
              ret (mkLocals result None (Some charge))
            else
              log debug "Fetching PaymentIntent referenced by charge" ;;
              paymentIntent <-
                call (PaymentIntentsRetrieve pid ["latest_charge"])
                     (paymentIntents_retrieve stripe pid ["latest_charge"]) ;;
              ret (mkLocals
                     (set_paymentIntent result
                        (summarizePaymentIntent paymentIntent))
                     (Some paymentIntent) (Some charge))
        | Some (ExpObject paymentIntent), _ =>
            ret (mkLocals
                   (set_paymentIntent result
                      (summarizePaymentIntent paymentIntent))
                   (Some paymentIntent) (Some charge))
        | _, _ =>
            ret (mkLocals result (l_paymentIntent vars) (Some charge))
        end
    | None => ret vars
    end ;;
  (* if (!charge && paymentIntent?.id) *)
  vars <-
    match l_charge vars, l_paymentIntent vars with
    | None, Some paymentIntent =>
        if (pi_id paymentIntent =? "")%string then ret vars
        else
          chargeList <-
            call (ChargesList (pi_id paymentIntent) 1 expand_charge_list)
                 (charges_list stripe (pi_id paymentIntent) 1
                    expand_charge_list) ;;
          match hd_error chargeList with
          | Some charge =>
              log debug "Charge inferred from PaymentIntent charges list" ;;
              ret (mkLocals (set_charge (l_result vars) (summarizeCharge charge))
                     (l_paymentIntent vars) (Some charge))
          | None =>
              log warn "No charge found for payment intent" ;;
              ret (mkLocals (l_result vars) (l_paymentIntent vars) None)
          end
    | _, _ => ret vars
    end ;;
  ret vars.

Definition buildFraudInsight (stripe : Stripe) (input : FraudInsightInput)
  : M FraudInsightResult :=
  vars <- resolveCharge stripe input ;;
  match l_charge vars with
  | Some charge =>
      (* result.charge ??= summarizeCharge(charge) *)
      let result :=
        match result_charge (l_result vars) with
        | Some _ => l_result vars
        | None => set_charge (l_result vars) (summarizeCharge charge)
        end in
      earlyFraudWarnings <-
        call (EarlyFraudWarningsList (charge_id charge))
             (radar_earlyFraudWarnings_list stripe (charge_id charge)) ;;
      reviews <-
        match review charge with
        | Some (ExpId rid) =>
            if (rid =? "")%string then ret []
            else
              log debug "Retrieving associated review" ;;
              reviewResponse <-
                call (ReviewsRetrieve rid) (reviews_retrieve stripe rid) ;;
              ret [summarizeReview reviewResponse]
        | Some (ExpObject r) => ret [summarizeReview r]
        | None => ret []
        end ;;
      disputeData <-
        (if include_events input then
           call (DisputesList (charge_id charge) 100)
                (disputes_list stripe (charge_id charge) 100)
         else ret []) ;;
      refundData <-
        match refunds charge with
        | Some data => ret data
        | None =>
            if include_events input then
              call (RefundsList (charge_id charge) 100)
                   (refunds_list stripe (charge_id charge) 100)
            else ret []
        end ;;
      log debug "Radar context collected" ;;
      let result :=
        set_radar result
          {| early_fraud_warnings :=
               map summarizeEarlyFraudWarning earlyFraudWarnings;
             reviews := reviews;
             radar_disputes := map summarizeDispute disputeData;
             radar_refunds := map summarizeRefund refundData;
             radar_risk_level := riskLevelOf charge;
             radar_risk_score :=
               match outcome charge with
               | Some o => risk_score o
               | None => None
               end;
             radar_outcome_type :=
               match outcome charge with
               | Some o => outcome_type o
               | None => None
               end;
             radar_seller_message :=
               match outcome charge with
               | Some o => seller_message o
               | None => None
               end |} in
      emit (EvDerive charge earlyFraudWarnings disputeData) ;;
      ret (set_recommendation result
             (deriveRecommendation charge earlyFraudWarnings disputeData))
  | None =>
      log warn "No charge details available for fraud insight" ;;
      ret (set_recommendation (l_result vars) no_charge_recommendation)
  end.

(** The handler registered as [stripe_fraud_insight]. *)
Definition stripe_fraud_insight (stripe : Stripe) (input : FraudInsightInput)
  : M FraudToolResult :=
  log info "Invocation received" ;;
  try_catch
    ((if negb (truthy (payment_intent_id input))
         && negb (truthy (charge_id_in input))
      then
        log warn "Missing identifiers for fraud insight request" ;;
        throw (JsError missing_ids_fraud_message)
      else ret tt) ;;
     insight <- buildFraudInsight stripe input ;;
     let charge_outcome :=
       match result_charge insight with
       | Some c => cs_outcome c
       | None => None
       end in
     let summaryLines :=
       [ "Payment Intent: "
           ++ nullish (option_map pis_id (result_paymentIntent insight)) "n/a"
           ++ " | status: "
           ++ nullish (option_map pis_status (result_paymentIntent insight))
                      "unknown";
         "Charge: "
           ++ nullish (option_map cs_id (result_charge insight)) "n/a"
           ++ " | risk level: "
           ++ nullish (match charge_outcome with
                       | Some o => risk_level o
                       | None => None
                       end) "unknown"
           ++ " | risk score: "
           ++ nullish (match charge_outcome with
                       | Some o => option_map showZ (risk_score o)
                       | None => None
                       end) "unknown";
         "Recommendation: "
           ++ action_upper (action (recommendation insight))
           ++ " - " ++ reason (recommendation insight) ] in
     log info "Fraud insight generated" ;;
     ret {| fraud_text :=
              join newline summaryLines ++ newline ++ newline
                ++ "Full details:" ++ newline ++ JSON_stringify insight;
            fraud_structuredContent := insight |})
    (fun err =>
       log error "Fraud insight tool failed" ;;
       throw err).

(** The handler registered as [stripe_create_refund]. *)
Definition stripe_create_refund (stripe : Stripe) (input : RefundInput)
  : M RefundToolResult :=
  log info "Invocation received" ;;
  try_catch
    ((if negb (truthy (refund_in_payment_intent_id input))
         && negb (truthy (refund_in_charge_id input))
      then
        log warn "Missing identifiers for refund request" ;;
        throw (JsError missing_ids_refund_message)
      else ret tt) ;;
     let params :=
       {| params_payment_intent := as_truthy (refund_in_payment_intent_id input);
          params_charge := as_truthy (refund_in_charge_id input);
          params_amount := refund_in_amount input;
          params_reason := refund_in_reason input;
          params_metadata := refund_in_metadata input |} in
     log debug "Creating refund with parameters" ;;
     refundResponse <-
       call (RefundsCreate params) (refunds_create stripe params) ;;
     let r := response_refund refundResponse in
     log info "Refund created" ;;
     ret {| refund_text :=
              "Refund " ++ refund_id r ++ " created for "
                ++ showZ (refund_amount r) ++ " " ++ refund_currency r
                ++ " on "
                ++ match refund_charge r, refund_payment_intent r with
                   | Some c, _ => show_expandable c
                   | None, Some p => show_expandable p
                   | None, None => "unknown target"
                   end
                ++ ". Status: " ++ nullish (refund_status r) "unknown";
            structured_refund := r;
            structured_last_response := lastResponse refundResponse |})
    (fun err =>
       log error "Refund tool failed" ;;
       throw err).

End Effects.

Arguments ret {World A} a.
Arguments throw {World A} e.
Arguments mkState {World} world trace.
Arguments world {World} s.
Arguments trace {World} s.
Arguments paymentIntents_retrieve {World} s.
Arguments charges_retrieve {World} s.
Arguments charges_list {World} s.
Arguments radar_earlyFraudWarnings_list {World} s.
Arguments reviews_retrieve {World} s.
Arguments disputes_list {World} s.
Arguments refunds_list {World} s.
Arguments refunds_create {World} s.
Arguments resolveCharge {World} stripe input.
Arguments buildFraudInsight {World} stripe input.
Arguments stripe_fraud_insight {World} JSON_stringify stripe input.
Arguments stripe_create_refund {World} stripe input.
Arguments bind {World A B} m k.
Arguments try_catch {World A} m h.
Arguments emit {World} ev.
Arguments log {World} level message.
Arguments call {World A} c request.

(** ** Specifications of runs *)

(** [emits P Q m]: from any state, [m] appends to the trace only events
    that satisfy [P], and what it returns satisfies [Q]. *)
Definition emits {World A : Type} (P : Event -> bool) (Q : A -> Prop)
    (m : M World A) : Prop :=
  forall s : State World,
    exists t : list Event,
      trace (snd (m s)) = (trace s ++ t)%list
      /\ forallb P t = true
      /\ forall a, fst (m s) = inr a -> Q a.

(** The [radar] section of [result] has not been assigned. *)
Definition radar_unset (vars : Locals) : Prop :=
  result_radar (l_result vars) = None.

(** What a run of [buildFraudInsight] without events returns. *)
Definition without_dispute_rule (result : FraudInsightResult) : Prop :=
  reason (recommendation result) <> dispute_reason_text
  /\ forall radar, result_radar result = Some radar -> radar_disputes radar = [].

(** The events of charge resolution: logger calls and the three lookups. *)
Definition resolving (ev : Event) : bool :=
  match ev with
  | EvLog _ _ => true
  | EvCall (PaymentIntentsRetrieve _ _) => true
  | EvCall (ChargesRetrieve _ _) => true
  | EvCall (ChargesList _ _ _) => true
  | _ => false
  end.

(** ** The logger's context sanitizer *)

Definition secretKeys : list string :=
  ["api_key"; "apiKey"; "stripe_api_key"; "authorization"; "token"; "secret"].

(** [set.has(key)] *)
Definition has (set : list string) (key : string) : bool :=
  existsb (String.eqb key) set.

(** Writing the own data property [key] of an object: the property keeps
    its position when it exists and is added last otherwise. *)
Fixpoint obj_define (obj : JsObj) (key : string) (value : JsValue) : JsObj :=
  match obj with
  | [] => [(key, value)]
  | (k, v) :: rest =>
      if (k =? key)%string then (k, value) :: rest
      else (k, v) :: obj_define rest key value
  end.

(** [obj[key] = value] on an object created by a literal, whose own
    properties are all written by such assignments. The name ["__proto__"]
    is never an own property of such an object: the assignment reaches the
    accessor inherited from [Object.prototype], which changes the prototype
    when [value] is an object or [null], does nothing otherwise, and in
    neither case defines an own property. Every other name is written as an
    own data property; no prototype such an assignment can install holds an
    accessor or a read-only property for it, the values being plain data. *)
Definition obj_set (obj : JsObj) (key : string) (value : JsValue) : JsObj :=
  if (key =? "__proto__")%string then obj else obj_define obj key value.


Definition keys (obj : JsObj) : list string := map fst obj.

Fixpoint distinct (l : list string) : bool :=
  match l with
  | [] => true
  | k :: rest => negb (has rest k) && distinct rest
  end.

(** The entries an assignment [sanitized[key] = ...] copies: all but one
    named ["__proto__"]. *)
Definition copied (entry : string * JsValue) : bool :=
  negb (fst entry =? "__proto__")%string.

(** The lower-case names among [secretKeys]. *)
Definition redactedKeys : list string :=
  ["api_key"; "stripe_api_key"; "authorization"; "token"; "secret"].

Definition lower_ascii (c : ascii) : ascii :=
  let n := nat_of_ascii c in
  if (65 <=? n)%nat && (n <=? 90)%nat then ascii_of_nat (n + 32) else c.

(** [String.prototype.toLowerCase] on strings of ASCII characters. *)
Fixpoint toLowerCase_ascii (s : string) : string :=
  match s with
  | EmptyString => EmptyString
  | String c rest => String (lower_ascii c) (toLowerCase_ascii rest)
  end.



Section Sanitizer.

(** [String.prototype.toLowerCase], a built-in of the language. *)
Variable toLowerCase : string -> string.

(** The body of [sanitizeContext], on the value that holds the context:
    the recursion descends through the nested object values. *)
Fixpoint sanitizeObject (context : JsValue) : JsObj :=
  match context with
  | JsObject entries =>
      fold_left
        (fun sanitized '(key, value) =>
           if has secretKeys (toLowerCase key) then
             obj_set sanitized key (JsString "[REDACTED]")
           else
             match value with
             | JsObject _ =>
                 obj_set sanitized key (JsObject (sanitizeObject value))
             | _ => obj_set sanitized key value
             end)
        entries []
  | _ => []
  end.

Definition sanitizeContext (context : JsObj) : JsObj :=
  sanitizeObject (JsObject context).


End Sanitizer.

(** ** Sample data and a scripted Stripe client *)

Module Sample.

Definition outcome_of (level : option string) (score : option Z) : Outcome :=
  {| network_status := Some "approved_by_network";
     outcome_reason := None;
     risk_level := level;
     risk_score := score;
     seller_message := Some "Payment complete.";
     outcome_type := Some "authorized" |}.

Definition charge_with (id : string) (o : option Outcome) : Charge :=
  {| charge_id := id;
     charge_amount := 4200;
     captured := true;
     paid := true;
     charge_currency := "usd";
     refunded := false;
     disputed := false;
     charge_status := Some "succeeded";
     outcome := o;
     metadata := JsObject [];
     payment_method_details := None;
     review := None;
     receipt_url := None;
     charge_payment_intent := None;
     refunds := None |}.

Definition scored (score : Z) : Charge :=
  charge_with "ch_scored" (Some (outcome_of None (Some score))).

Definition levelled (level : string) : Charge :=
  charge_with "ch_levelled" (Some (outcome_of (Some level) None)).

Definition bare : Charge := charge_with "ch_bare" None.

(** Another charge with the outcome of [scored 60]. *)
Definition scored_elsewhere : Charge :=
  {| charge_id := "ch_other";
     charge_amount := 99;
     captured := false;
     paid := true;
     charge_currency := "eur";
     refunded := true;
     disputed := false;
     charge_status := None;
     outcome := Some (outcome_of None (Some 60));
     metadata := JsNull;
     payment_method_details := None;
     review := Some (ExpId "prv_1");
     receipt_url := None;
     charge_payment_intent := None;
     refunds := Some [] |}.

Definition a_dispute : Dispute :=
  {| dispute_id := "dp_1";
     dispute_amount := 4200;
     dispute_currency := "usd";
     dispute_status := "needs_response";
     dispute_reason := Some "fraudulent";
     dispute_created := 1700000000;
     dispute_charge := Some (ExpId "ch_disputed");
     dispute_payment_intent := None |}.

Definition warning (id : string) (flag : bool) : EarlyFraudWarning :=
  {| efw_id := id;
     actionable := flag;
     fraud_type := "unauthorized_use_of_card";
     efw_created := 1700000001;
     efw_charge := ExpId "ch_disputed";
     efw_payment_intent := None |}.

Definition orphan_intent : PaymentIntent :=
  {| pi_id := "pi_orphan";
     pi_amount := 4200;
     amount_capturable := 0;
     amount_received := 0;
     pi_currency := "usd";
     pi_status := "requires_payment_method";
     customer := JsNull;
     pi_created := 1700000002;
     confirmation_method := "automatic";
     payment_method_types := ["card"];
     latest_charge := None |}.

Definition disputed_charge : Charge :=
  charge_with "ch_disputed" (Some (outcome_of (Some "normal") (Some 12))).

Definition a_refund : Refund :=
  {| refund_id := "re_1";
     refund_amount := 4200;
     refund_currency := "usd";
     refund_status := Some "succeeded";
     refund_reason := None;
     refund_created := 1700000003;
     refund_charge := Some (ExpId "ch_disputed");
     refund_payment_intent := None |}.

Definition not_found (what : string) : Thrown :=
  UpstreamError (JsObject [("message", JsString ("No such " ++ what))]).

(** An upstream account that knows one payment intent without a charge
    and one charge with an open dispute; its state counts the requests
    served. *)
Definition client : Stripe nat :=
  {| paymentIntents_retrieve := fun id _ w =>
       (if (id =? "pi_orphan")%string then inr orphan_intent
        else inl (not_found "payment_intent"), S w);
     charges_retrieve := fun id _ w =>
       (if (id =? "ch_disputed")%string then inr disputed_charge
        else inl (not_found "charge"), S w);
     charges_list := fun _ _ _ w => (inr [], S w);
     radar_earlyFraudWarnings_list := fun _ w => (inr [], S w);
     reviews_retrieve := fun _ w => (inl (not_found "review"), S w);
     disputes_list := fun id _ w =>
       (inr (if (id =? "ch_disputed")%string then [a_dispute] else []), S w);
     refunds_list := fun _ _ w => (inr [], S w);
     refunds_create := fun _ w =>
       (inr {| response_refund := a_refund; lastResponse := JsNull |}, S w) |}.

Definition start : State nat := {| world := 0%nat; trace := [] |}.

Definition by_intent (id : string) (events : bool) : FraudInsightInput :=
  {| payment_intent_id := Some id; charge_id_in := None;
     include_events := events |}.

Definition by_charge (id : string) (events : bool) : FraudInsightInput :=
  {| payment_intent_id := None; charge_id_in := Some id;
     include_events := events |}.

Definition no_ids : FraudInsightInput :=
  {| payment_intent_id := None; charge_id_in := None;
     include_events := true |}.

Definition refund_no_ids : RefundInput :=
  {| refund_in_payment_intent_id := None;
     refund_in_charge_id := None;
     refund_in_amount := Some 100;
     refund_in_reason := Some fraudulent;
     refund_in_metadata := None |}.

Definition context : JsObj :=
  [ ("token", JsString "sk_live_1");
    ("apiKey", JsString "sk_live_2");
    ("request",
     JsObject [("Authorization", JsString "Bearer x"); ("attempt", JsNumber 1)]);
    ("metadata_keys", JsArray [JsObject [("secret", JsString "kept")]]) ].


End Sample.

(** ** Orders on actions and risk levels *)

(** How strong an action is: [monitor] < [manual_review] < [refund]. *)
Definition severity (a : FraudAction) : Z :=
  match a with
  | monitor => 0
  | manual_review => 1
  | refund => 2
  end.

(** The rank the evaluator gives a risk level: the two names it tests, and
    everything else (an absent level included) below them. *)
Definition level_rank (riskLevel : option string) : Z :=
  if level_is riskLevel "highest" then 2
  else if level_is riskLevel "elevated" then 1
  else 0.

(** [l.length > 0] *)
Definition nonempty {A : Type} (l : list A) : bool :=
  match l with
  | [] => false
  | _ :: _ => true
  end.

(** ** What a fraud insight holds *)

(** The decision table read on the [radar] section of a result. *)
Definition recommend_from_radar (radar : RadarInsight) : FraudRecommendation :=
  let riskLevel := radar_risk_level radar in
  let riskScore := nullish (radar_risk_score radar) 0 in
  if nonempty (radar_disputes radar) then
    {| action := refund; reason := dispute_reason_text |}
  else if existsb es_actionable (early_fraud_warnings radar) then
    {| action := refund; reason := warning_reason_text |}
  else if level_is riskLevel "highest" || (75 <=? riskScore) then
    {| action := refund; reason := high_risk_reason riskLevel riskScore |}
  else if level_is riskLevel "elevated" || (50 <=? riskScore) then
    {| action := manual_review; reason := elevated_reason_text |}
  else
    {| action := monitor; reason := monitor_reason_text |}.

(** The sections of a returned insight fit together: without a charge
    there is no radar section and the recommendation is the fallback; with a
    charge there is one, it repeats the risk level and score of the charge
    summary, and the recommendation is the table read on it. *)
Definition insight_consistent (result : FraudInsightResult) : Prop :=
  match result_charge result, result_radar result with
  | None, None => recommendation result = no_charge_recommendation
  | Some summary, Some radar =>
      recommendation result = recommend_from_radar radar
      /\ radar_risk_level radar =
         match cs_outcome summary with
         | Some o => risk_level o
         | None => None
         end
      /\ radar_risk_score radar =
         match cs_outcome summary with
         | Some o => risk_score o
         | None => None
         end
  | _, _ => False
  end.

(** The local variables after charge resolution: [result] has no radar
    section, and its charge section, once assigned, summarizes [charge]. *)
Definition resolved (vars : Locals) : Prop :=
  result_radar (l_result vars) = None
  /\ match l_charge vars with
     | Some charge =>
         result_charge (l_result vars) = None
         \/ result_charge (l_result vars) = Some (summarizeCharge charge)
     | None => result_charge (l_result vars) = None
     end.

(** Requests that read from Stripe. *)
Definition reads_only (ev : Event) : bool :=
  match ev with
  | EvCall (RefundsCreate _) => false
  | _ => true
  end.

(** The events of a run without events: logger calls, the lookups, the
    early-fraud-warning list, a review lookup and the evaluator mark. *)
Definition lists_no_events (ev : Event) : bool :=
  match ev with
  | EvCall (DisputesList _ _) => false
  | EvCall (RefundsList _ _) => false
  | EvCall (RefundsCreate _) => false
  | _ => true
  end.

(** The events of the second part of [buildFraudInsight] for [charge]:
    logger calls, a review lookup, the three lists asked for [charge.id]
    with the page size of the code, and the evaluator mark on [charge]. *)
Definition concerns (charge : Charge) (ev : Event) : bool :=
  match ev with
  | EvLog _ _ => true
  | EvCall (ReviewsRetrieve _) => true
  | EvCall (EarlyFraudWarningsList c) => (c =? charge_id charge)%string
  | EvCall (DisputesList c limit) =>
      (c =? charge_id charge)%string && (limit =? 100)
  | EvCall (RefundsList c limit) =>
      (c =? charge_id charge)%string && (limit =? 100)
  | EvDerive c _ _ => (charge_id c =? charge_id charge)%string
  | _ => false
  end.

(** The events after charge resolution, by its outcome. *)
Definition concerns_resolved (vars : Locals) (ev : Event) : bool :=
  match l_charge vars with
  | Some charge => concerns charge ev
  | None => match ev with EvLog _ _ => true | _ => false end
  end.

(** The charge section of the result is the summary of the resolved
    charge. *)
Definition reports_resolved (vars : Locals) (result : FraudInsightResult)
  : Prop :=
  result_charge result = option_map summarizeCharge (l_charge vars).

(** [stripe] with other answers to the dispute and refund lists. *)
Definition with_lists {World : Type} (stripe : Stripe World)
    (disputes_list' : string -> Z -> World -> (Thrown + list Dispute) * World)
    (refunds_list' : string -> Z -> World -> (Thrown + list Refund) * World)
  : Stripe World :=
  {| paymentIntents_retrieve := paymentIntents_retrieve stripe;
     charges_retrieve := charges_retrieve stripe;
     charges_list := charges_list stripe;
     radar_earlyFraudWarnings_list := radar_earlyFraudWarnings_list stripe;
     reviews_retrieve := reviews_retrieve stripe;
     disputes_list := disputes_list';
     refunds_list := refunds_list';
     refunds_create := refunds_create stripe |}.

(** The events other than the evaluator mark. *)
Definition not_evaluating (ev : Event) : bool :=
  match ev with
  | EvDerive _ _ _ => false
  | _ => true
  end.

(** [evaluates_last m]: a run of [m] that invokes the evaluator returns;
    one that throws has not invoked it. *)
Definition evaluates_last {World A : Type} (m : M World A) : Prop :=
  forall s : State World,
    exists t : list Event,
      trace (snd (m s)) = (trace s ++ t)%list
      /\ (forallb not_evaluating t = true \/ exists a, fst (m s) = inr a).

(** ** Counting Stripe requests *)

(** The number of Stripe requests in a trace. *)
Definition calls (t : list Event) : nat := length (filter is_call t).

(** [counted c0 N Q m]: when [c0] requests have been sent so far, a run of
    [m] keeps the total at [N] or below, whether it returns or throws, and
    what it returns satisfies [Q] together with the total reached. *)
Definition counted {World A : Type} (c0 N : nat) (Q : A -> nat -> Prop)
    (m : M World A) : Prop :=
  forall s : State World,
    exists t : list Event,
      trace (snd (m s)) = (trace s ++ t)%list
      /\ (c0 + calls t <= N)%nat
      /\ forall a, fst (m s) = inr a -> Q a (c0 + calls t)%nat.

(** Request totals after the first, the second and the third block of
    charge resolution. *)
Definition after_intent (vars : Locals) (c : nat) : Prop :=
  (c <= 2)%nat
  /\ (l_paymentIntent vars = None -> c = 0%nat)
  /\ (l_charge vars = None -> (c <= 1)%nat).

Definition after_charge (vars : Locals) (c : nat) : Prop :=
  (c <= 3)%nat /\ (l_charge vars = None -> (c <= 1)%nat).

(** A scripted client that answers every request: any payment intent
    names a latest charge by its id, any charge names a review by its id
    and comes without its refunds. *)
Module Busy.

(** [Sample.context] with other secrets. *)
Definition context : JsObj :=
  [ ("token", JsString "sk_test_9");
    ("apiKey", JsString "sk_live_2");
    ("request",
     JsObject [("Authorization", JsNull); ("attempt", JsNumber 1)]);
    ("metadata_keys", JsArray [JsObject [("secret", JsString "kept")]]) ].

(** The context of the handler's first log line. *)
Definition plain_context : JsObj :=
  [ ("has_payment_intent", JsBool false);
    ("has_charge", JsBool true);
    ("include_events", JsBool true);
    ("request", JsObject [("attempt", JsNumber 1)]) ].

Definition partial_refund : RefundInput :=
  {| refund_in_payment_intent_id := None;
     refund_in_charge_id := Some "ch_disputed";
     refund_in_amount := Some 100;
     refund_in_reason := Some fraudulent;
     refund_in_metadata := None |}.

Definition intent : PaymentIntent :=
  {| pi_id := "pi_busy";
     pi_amount := 100;
     amount_capturable := 0;
     amount_received := 100;
     pi_currency := "usd";
     pi_status := "succeeded";
     customer := JsNull;
     pi_created := 1700000100;
     confirmation_method := "automatic";
     payment_method_types := ["card"];
     latest_charge := Some (ExpId "ch_latest") |}.

Definition charge : Charge :=
  {| charge_id := "ch_busy";
     charge_amount := 100;
     captured := true;
     paid := true;
     charge_currency := "usd";
     refunded := false;
     disputed := false;
     charge_status := Some "succeeded";
     outcome := None;
     metadata := JsObject [];
     payment_method_details := None;
     review := Some (ExpId "prv_busy");
     receipt_url := None;
     charge_payment_intent := Some (ExpId "pi_busy");
     refunds := None |}.

Definition a_review : Review :=
  {| review_id := "prv_busy";
     review_open := true;
     review_reason := Some "rule";
     review_created := 1700000101;
     closed_reason := None |}.

Definition client : Stripe unit :=
  {| paymentIntents_retrieve := fun _ _ w => (inr intent, w);
     charges_retrieve := fun _ _ w => (inr charge, w);
     charges_list := fun _ _ _ w => (inr [charge], w);
     radar_earlyFraudWarnings_list := fun _ w => (inr [], w);
     reviews_retrieve := fun _ w => (inr a_review, w);
     disputes_list := fun _ _ w => (inr [], w);
     refunds_list := fun _ _ w => (inr [], w);
     refunds_create := fun _ w =>
       (inr {| response_refund := Sample.a_refund; lastResponse := JsNull |}, w) |}.

Definition both_ids (events : bool) : FraudInsightInput :=
  {| payment_intent_id := Some "pi_busy";
     charge_id_in := Some "ch_busy";
     include_events := events |}.

Definition start : State unit := {| world := tt; trace := [] |}.

End Busy.

(** Induction on a value with the hypothesis for every element of an array
    and every entry of an object. *)
Fixpoint JsValue_deep_ind (P : JsValue -> Prop)
    (Hundefined : P JsUndefined) (Hnull : P JsNull)
    (Hbool : forall b, P (JsBool b)) (Hnumber : forall n, P (JsNumber n))
    (Hstring : forall s, P (JsString s))
    (Harray : forall items, Forall P items -> P (JsArray items))
    (Hobject : forall entries,
        Forall (fun kv => P (snd kv)) entries -> P (JsObject entries))
    (value : JsValue) {struct value} : P value :=
  let rec :=
    JsValue_deep_ind P Hundefined Hnull Hbool Hnumber Hstring Harray Hobject in
  match value with
  | JsUndefined => Hundefined
  | JsNull => Hnull
  | JsBool b => Hbool b
  | JsNumber n => Hnumber n
  | JsString s => Hstring s
  | JsArray items =>
      Harray items
        ((fix all (l : list JsValue) : Forall P l :=
            match l with
            | [] => Forall_nil P
            | x :: rest => Forall_cons x (rec x) (all rest)
            end) items)
  | JsObject entries =>
      Hobject entries
        ((fix all (l : list (string * JsValue))
            : Forall (fun kv => P (snd kv)) l :=
            match l with
            | [] => Forall_nil _
            | (key, x) :: rest =>
                Forall_cons (P := fun kv => P (snd kv)) (key, x) (rec x)
                  (all rest)
            end) entries)
  end.

(** ** Redaction in depth *)

Definition is_redaction (value : JsValue) : bool :=
  match value with
  | JsString s => (s =? "[REDACTED]")%string
  | _ => false
  end.

Section Redaction.

Variable toLowerCase : string -> string.

(** No secret is left in an object, at any depth reached through object
    values: an entry under one of the five names holds ['[REDACTED]'], and
    the others are free of secrets in turn. Arrays are not entered. *)
Fixpoint redacted (value : JsValue) : bool :=
  match value with
  | JsObject entries =>
      forallb
        (fun '(key, nested) =>
           if has redactedKeys (toLowerCase key) then is_redaction nested
           else redacted nested)
        entries
  | _ => true
  end.

(** Two values that differ at most in what is stored under the five
    names, at any depth reached through object values. *)
Fixpoint same_but_secrets (v1 v2 : JsValue) {struct v1} : Prop :=
  match v1, v2 with
  | JsObject entries1, JsObject entries2 =>
      (fix each (l1 l2 : list (string * JsValue)) {struct l1} : Prop :=
         match l1, l2 with
         | [], [] => True
         | (key1, x1) :: rest1, (key2, x2) :: rest2 =>
             key1 = key2
             /\ (has redactedKeys (toLowerCase key1) = true
                 \/ same_but_secrets x1 x2)
             /\ each rest1 rest2
         | _, _ => False
         end) entries1 entries2
  | _, _ => v1 = v2
  end.

(** No key is one of [secretKeys] once lower-cased or is ["__proto__"], and
    property names are distinct, at any depth reached through object
    values. *)
Fixpoint plain (value : JsValue) : bool :=
  match value with
  | JsObject entries =>
      distinct (keys entries)
      && forallb
           (fun '(key, nested) =>
              negb (has secretKeys (toLowerCase key))
              && negb (key =? "__proto__")%string
              && plain nested)
           entries
  | _ => true
  end.

(** The value [sanitizeContext] assigns for the entry [key: value]. *)
Definition assigned (key : string) (value : JsValue) : JsValue :=
  if has secretKeys (toLowerCase key) then JsString "[REDACTED]"
  else
    match value with
    | JsObject _ => JsObject (sanitizeObject toLowerCase value)
    | _ => value
    end.

End Redaction.

(** ** The logger *)

Definition levelPriority (level : LogLevel) : Z :=
  match level with
  | debug => 10
  | info => 20
  | warn => 30
  | error => 40
  end.

(** The level as the string it is in the source. *)
Definition level_label (level : LogLevel) : string :=
  match level with
  | debug => "debug"
  | info => "info"
  | warn => "warn"
  | error => "error"
  end.

Record Logger : Type := mkLogger {
  logger_level : LogLevel;
  logger_name : option string
}.

(** [new Logger(level = 'info', name?)] *)
Definition new_Logger (level : option LogLevel) (name : option string)
  : Logger :=
  {| logger_level := nullish level info; logger_name := name |}.

(** The console methods a line is written with. *)
Inductive Console : Type := console_log | console_warn | console_error.

Section LoggerMethods.

Variable toLowerCase : string -> string.

(** [JSON.stringify(payload)] *)
Variable JSON_stringify : JsValue -> string.

(** [Logger.log]: the lines it writes to the console, given the time
    [new Date().toISOString()] reads. *)
Definition Logger_log (this : Logger) (now : string) (level : LogLevel)
    (message : string) (context : option JsObj) : list (Console * string) :=
  if levelPriority level <? levelPriority (logger_level this) then []
  else
    let payload :=
      [ ("level", JsString (level_label level));
        ("timestamp", JsString now);
        ("message", JsString message) ] in
    let payload :=
      match as_truthy (logger_name this) with
      | Some name => obj_set payload "logger" (JsString name)
      | None => payload
      end in
    let payload :=
      match context with
      | Some context =>
          if 0 <? Z.of_nat (length (keys context)) then
            obj_set payload "context"
              (JsObject (sanitizeContext toLowerCase context))
          else payload
      | None => payload
      end in
    let serialized := JSON_stringify (JsObject payload) in
    match level with
    | debug | info => [(console_log, serialized)]
    | warn => [(console_warn, serialized)]
    | error => [(console_error, serialized)]
    end.

(** [Logger.child]: the child and the lines its creation writes. *)
Definition Logger_child (this : Logger) (now : string) (childName : string)
    (context : option JsObj) : Logger * list (Console * string) :=
  let child :=
    {| logger_level := logger_level this;
       logger_name :=
         Some match as_truthy (logger_name this) with
              | Some name => name ++ ":" ++ childName
              | None => childName
              end |} in
  (child,
   match context with
   | Some context =>
       Logger_log child now debug "Logger child created" (Some context)
   | None => []
   end).

(** The logger reached from [this] by a chain of [child] calls. *)
Definition descend (this : Logger) (now : string) (path : list string)
  : Logger :=
  fold_left (fun logger childName => fst (Logger_child logger now childName None))
            path this.

End LoggerMethods.

(** ** The raw request tool *)

Inductive Method : Type := GET | POST | DELETE.

(** The method as the string it is in the source; [toUpperCase] leaves
    the three values as they are. *)
Definition method_label (method : Method) : string :=
  match method with
  | GET => "GET"
  | POST => "POST"
  | DELETE => "DELETE"
  end.

Definition is_POST (method : Method) : bool :=
  match method with
  | POST => true
  | _ => false
  end.

(** A query value: [string | number | boolean]. *)
Inductive QueryValue : Type :=
| QString (s : string)
| QNumber (n : Z)
| QBoolean (b : bool).

(** [String(value)] *)
Definition String_of (value : QueryValue) : string :=
  match value with
  | QString s => s
  | QNumber n => showZ n
  | QBoolean b => if b then "true" else "false"
  end.

(** [path.includes('?')] *)
Fixpoint includes_question_mark (path : string) : bool :=
  match path with
  | EmptyString => false
  | String c rest => (c =? "?")%char || includes_question_mark rest
  end.

Record RawRequestInput : Type := mkRawRequestInput {
  raw_method : Method;
  raw_path : string;
  raw_query : option (list (string * QueryValue));
  raw_payload : option JsObj;
  raw_idempotency_key : option string;
  raw_stripe_account : option string;
  raw_api_version : option string
}.

(** The options object handed to [stripe.rawRequest]; a key that is not
    spread into it is [None]. *)
Record RequestOptions : Type := mkRequestOptions {
  idempotencyKey : option string;
  stripeAccount : option string;
  apiVersion : option string
}.

Record LastResponse : Type := mkLastResponse {
  statusCode : Z;
  requestId : string;
  response_headers : JsValue;
  response_apiVersion : option string;
  response_idempotencyKey : option string;
  response_stripeAccount : option string
}.

(** [{ lastResponse, ...responseData }] *)
Record RawResponse : Type := mkRawResponse {
  raw_lastResponse : LastResponse;
  responseData : JsObj
}.

(** The fields the handler reads of a [Stripe.errors.StripeError]. *)
Record StripeErrorInfo : Type := mkStripeErrorInfo {
  error_statusCode : option Z;
  error_type : string;
  error_code : option string;
  error_headers : option JsValue;
  error_message : string;
  error_requestId : option string
}.

(** The structured content of the two kinds of result. *)
Inductive RawStructured : Type :=
| RawCompleted (status : Z) (headers : JsValue) (request_id : string)
    (api_version idempotency_key stripe_account : option string)
    (data : JsObj)
| RawFailed (status : option Z) (type : string) (code : option string)
    (headers : option JsValue) (message : string) (request_id : option string).

Record RawToolResult : Type := mkRawToolResult {
  raw_text : string;
  raw_structuredContent : RawStructured;
  isError : bool
}.

Section RawRequest.

Variable World : Type.

(** [URLSearchParams.prototype.toString] on the appended pairs. *)
Variable URLSearchParams_toString : list (string * string) -> string.

(** [JSON.stringify(responseData, null, 2)] *)
Variable JSON_stringify : JsObj -> string.

(** [error instanceof Stripe.errors.StripeError], with the fields read. *)
Variable as_StripeError : Thrown -> option StripeErrorInfo.

(** [stripe.rawRequest(method, path, params, options)] *)
Variable rawRequest :
  Method -> string -> option JsObj -> RequestOptions ->
  World -> (Thrown + RawResponse) * World.

(** [await] of the raw request, which is outside the vocabulary of
    [ApiCall]: of this handler the trace keeps the logger calls. *)
Definition await_raw {A : Type} (request : World -> (Thrown + A) * World)
  : M World A :=
  fun s =>
    let (r, w) := request (world s) in
    (r, {| world := w; trace := trace s |}).

(** The path sent: the query is appended for [GET] and [DELETE]. *)
Definition requestPath (input : RawRequestInput) : string :=
  match raw_query input with
  | Some query =>
      if negb (is_POST (raw_method input)) then
        let search := map (fun '(key, value) => (key, String_of value)) query in
        let separator :=
          if includes_question_mark (raw_path input) then "&" else "?" in
        raw_path input ++ separator ++ URLSearchParams_toString search
      else raw_path input
  | None => raw_path input
  end.

(** [method === 'POST' ? (input.payload ?? {}) : undefined] *)
Definition requestParams (input : RawRequestInput) : option JsObj :=
  if is_POST (raw_method input) then Some (nullish (raw_payload input) [])
  else None.

Definition requestOptions (defaultStripeAccount : option string)
    (input : RawRequestInput) : RequestOptions :=
  let account :=
    match raw_stripe_account input with
    | Some explicit => Some explicit
    | None => defaultStripeAccount
    end in
  {| idempotencyKey := as_truthy (raw_idempotency_key input);
     stripeAccount := as_truthy account;
     apiVersion := as_truthy (raw_api_version input) |}.

(** The handler registered as [stripe_raw_request]. *)
Definition stripe_raw_request (defaultStripeAccount : option string)
    (input : RawRequestInput) : M World RawToolResult :=
  let method := raw_method input in
  bind (log info "Invocation received") (fun _ =>
  let path := requestPath input in
  let params := requestParams input in
  try_catch
    (bind (log debug "Dispatching raw request") (fun _ =>
     bind (await_raw
             (rawRequest method path params
                (requestOptions defaultStripeAccount input)))
          (fun response =>
     let last := raw_lastResponse response in
     bind (log info "Raw request completed") (fun _ =>
     ret {| raw_text :=
              "Stripe " ++ method_label method ++ " " ++ path ++ newline
                ++ "Status: " ++ showZ (statusCode last) ++ newline ++ newline
                ++ JSON_stringify (responseData response);
            raw_structuredContent :=
              RawCompleted (statusCode last) (response_headers last)
                (requestId last) (response_apiVersion last)
                (response_idempotencyKey last) (response_stripeAccount last)
                (responseData response);
            isError := false |}))))
    (fun err =>
       match as_StripeError err with
       | Some stripeError =>
           bind (log warn "Stripe raw error captured") (fun _ =>
           ret {| raw_text :=
                    "Stripe " ++ method_label method ++ " " ++ path
                      ++ " failed with status "
                      ++ nullish (option_map showZ (error_statusCode stripeError))
                                 "unknown"
                      ++ newline ++ error_message stripeError;
                  raw_structuredContent :=
                    RawFailed (error_statusCode stripeError) (error_type stripeError)
                      (error_code stripeError) (error_headers stripeError)
                      (error_message stripeError) (error_requestId stripeError);
                  isError := true |})
       | None =>
           bind (log error "Unexpected raw request failure") (fun _ =>
           throw err)
       end)).

End RawRequest.

Arguments stripe_raw_request {World} URLSearchParams_toString JSON_stringify
  as_StripeError rawRequest defaultStripeAccount input.

(** Charge resolution has found a charge. *)
Definition charge_found (vars : Locals) : Prop :=
  resolved vars /\ l_charge vars <> None.

(** * Properties *)

(** ** The evaluator's decision table *)

Lemma length_positive {A : Type} (l : list A) :
  (0 <? Z.of_nat (length l)) = negb (match l with [] => true | _ => false end).
Proof.
  destruct l as [|a l]; [reflexivity|].
  cbn [length negb]. apply Z.ltb_lt. lia.
Qed.

Lemma derive_no_disputes charge earlyFraudWarnings :
  deriveRecommendation charge earlyFraudWarnings [] =
  if some actionable earlyFraudWarnings then
    {| action := refund; reason := warning_reason_text |}
  else if level_is (riskLevelOf charge) "highest" || (75 <=? riskScoreOf charge) then
    {| action := refund;
       reason := high_risk_reason (riskLevelOf charge) (riskScoreOf charge) |}
  else if level_is (riskLevelOf charge) "elevated" || (50 <=? riskScoreOf charge) then
    {| action := manual_review; reason := elevated_reason_text |}
  else
    {| action := monitor; reason := monitor_reason_text |}.
Proof. reflexivity. Qed.

Lemma level_is_spec (riskLevel : option string) (name : string) :
  level_is riskLevel name = true <-> riskLevel = Some name.
Proof.
  destruct riskLevel as [l|]; cbn.
  - rewrite String.eqb_eq. split; congruence.
  - split; discriminate.
Qed.

Lemma some_false_iff {A : Type} (p : A -> bool) (l : list A) :
  some p l = false <-> forall x, In x l -> p x = false.
Proof.
  unfold some. induction l as [|a l IH]; cbn.
  - split; [intros _ x []|reflexivity].
  - rewrite orb_false_iff, IH. split.
    + intros [Ha Hl] x [<-|Hx]; auto.
    + intros H. split; [apply H; now left|intros x Hx; apply H; now right].
Qed.

(** C1: a non-empty dispute list forces [refund] with the reason
    ['Existing dispute detected. Prefer immediate refund to reduce losses.'],
    whatever the charge outcome (risk level, risk score) and the early
    fraud warnings are. *)
Theorem dispute_forces_refund
    (charge : Charge) (earlyFraudWarnings : list EarlyFraudWarning)
    (disputes : list Dispute) :
  disputes <> [] ->
  deriveRecommendation charge earlyFraudWarnings disputes =
  {| action := refund;
     reason :=
       "Existing dispute detected. Prefer immediate refund to reduce losses." |}.
Proof.
  intros Hne. unfold deriveRecommendation.
  rewrite length_positive.
  destruct disputes; [contradiction|reflexivity].
Qed.

Lemma dispute_forces_refund_witness :
  deriveRecommendation Sample.bare [Sample.warning "issfr_1" false]
    [Sample.a_dispute] =
  {| action := refund;
     reason :=
       "Existing dispute detected. Prefer immediate refund to reduce losses." |}.
Proof.
  apply (dispute_forces_refund Sample.bare [Sample.warning "issfr_1" false]
           [Sample.a_dispute]).
  discriminate.
Defined.

(** C2: with no dispute and at least one warning whose [actionable] flag is
    true, the recommendation is [refund] with the reason ['Actionable Radar
    early fraud warning present. Stripe recommends refunding.'], whatever
    the charge outcome is. *)
Theorem actionable_warning_forces_refund
    (charge : Charge) (earlyFraudWarnings : list EarlyFraudWarning)
    (disputes : list Dispute) :
  disputes = [] ->
  (exists warning, In warning earlyFraudWarnings /\ actionable warning = true) ->
  deriveRecommendation charge earlyFraudWarnings disputes =
  {| action := refund;
     reason :=
       "Actionable Radar early fraud warning present. Stripe recommends refunding." |}.
Proof.
  intros -> Hex. rewrite derive_no_disputes.
  replace (some actionable earlyFraudWarnings) with true; [reflexivity|].
  symmetry. apply existsb_exists. exact Hex.
Qed.

Lemma actionable_warning_forces_refund_witness :
  deriveRecommendation (Sample.scored 3)
    [Sample.warning "issfr_1" false; Sample.warning "issfr_2" true] [] =
  {| action := refund;
     reason :=
       "Actionable Radar early fraud warning present. Stripe recommends refunding." |}.
Proof.
  apply (actionable_warning_forces_refund (Sample.scored 3)
           [Sample.warning "issfr_1" false; Sample.warning "issfr_2" true] []).
  - reflexivity.
  - exists (Sample.warning "issfr_2" true). split; [|reflexivity].
    right; left; reflexivity.
Defined.

Lemma derive_quiet charge earlyFraudWarnings :
  (forall warning, In warning earlyFraudWarnings -> actionable warning = false) ->
  deriveRecommendation charge earlyFraudWarnings [] =
  if level_is (riskLevelOf charge) "highest" || (75 <=? riskScoreOf charge) then
    {| action := refund;
       reason := high_risk_reason (riskLevelOf charge) (riskScoreOf charge) |}
  else if level_is (riskLevelOf charge) "elevated" || (50 <=? riskScoreOf charge) then
    {| action := manual_review; reason := elevated_reason_text |}
  else
    {| action := monitor; reason := monitor_reason_text |}.
Proof.
  intros Hw. rewrite derive_no_disputes.
  now rewrite (proj2 (some_false_iff actionable earlyFraudWarnings) Hw).
Qed.

Lemma elevated_test (charge : Charge) :
  level_is (riskLevelOf charge) "elevated" || (50 <=? riskScoreOf charge) = true
  <-> riskLevelOf charge = Some "elevated" \/ 50 <= riskScoreOf charge.
Proof. now rewrite orb_true_iff, level_is_spec, Z.leb_le. Qed.

(** The level and score rules, read on the fields of the charge. *)
Lemma derive_quiet_outcome charge earlyFraudWarnings :
  (forall warning, In warning earlyFraudWarnings -> actionable warning = false) ->
  deriveRecommendation charge earlyFraudWarnings [] =
  match outcome charge with
  | Some o =>
      if level_is (risk_level o) "highest" || (75 <=? nullish (risk_score o) 0)
      then
        {| action := refund;
           reason :=
             "High risk detected (level: " ++ nullish (risk_level o) "n/a"
             ++ ", score: " ++ showZ (nullish (risk_score o) 0) ++ ")." |}
      else if level_is (risk_level o) "elevated"
              || (50 <=? nullish (risk_score o) 0)
      then
        {| action := manual_review;
           reason :=
             "Elevated risk level. Review supporting evidence before issuing refund." |}
      else
        {| action := monitor;
           reason :=
             "No disputes or actionable warnings. Monitor the transaction for future signals." |}
  | None =>
      {| action := monitor;
         reason :=
           "No disputes or actionable warnings. Monitor the transaction for future signals." |}
  end.
Proof.
  intros Hw. rewrite (derive_quiet _ _ Hw).
  unfold riskLevelOf, riskScoreOf.
  destruct (outcome charge) as [o|]; reflexivity.
Qed.

(** The two tests, on a level and a score as the charge holds them. *)
Lemma threshold_test (level : option string) (score : option Z)
    (name : string) (bound : Z) :
  level_is level name || (bound <=? nullish score 0) = true
  <-> level = Some name
      \/ (exists n, score = Some n /\ bound <= n)
      \/ (score = None /\ bound <= 0).
Proof.
  rewrite orb_true_iff, level_is_spec, Z.leb_le.
  destruct score as [n|]; cbn [nullish].
  - split.
    + intros [H|H]; [now left|right; left; now exists n].
    + intros [H|[[m [[= <-] H]]|[[=] _]]]; auto.
  - split.
    + intros [H|H]; [now left|right; right; now split].
    + intros [H|[[m [[=] _]]|[_ H]]]; auto.
Qed.

(** C3: with no dispute and no actionable warning, a charge whose outcome
    has [risk_level] ['highest'] or a [risk_score] of at least 75 gives
    [refund], with the reason ['High risk detected (level: L, score: S).']
    that quotes the level (['n/a'] when absent) and the score (0 when
    absent); the bound is inclusive (a score of exactly 75 gives [refund]);
    and an absent score never reaches the threshold: [refund] then comes
    from the level ['highest'] alone, and a charge without outcome never
    gets [refund]. *)
Theorem high_risk_forces_refund
    (charge : Charge) (earlyFraudWarnings : list EarlyFraudWarning)
    (disputes : list Dispute) :
  disputes = [] ->
  (forall warning, In warning earlyFraudWarnings -> actionable warning = false) ->
  let r := deriveRecommendation charge earlyFraudWarnings disputes in
  (forall o,
     outcome charge = Some o ->
     risk_level o = Some "highest"
     \/ (exists n, risk_score o = Some n /\ 75 <= n) ->
     r = {| action := refund;
            reason :=
              "High risk detected (level: " ++ nullish (risk_level o) "n/a"
              ++ ", score: " ++ showZ (nullish (risk_score o) 0) ++ ")." |})
  /\ (forall o, outcome charge = Some o -> risk_score o = Some 75 ->
      action r = refund)
  /\ (forall o, outcome charge = Some o -> risk_score o = None ->
      (action r = refund <-> risk_level o = Some "highest")
      /\ (risk_level o = Some "highest" ->
          reason r = "High risk detected (level: highest, score: 0)."))
  /\ (outcome charge = None -> action r <> refund).
Proof.
  intros -> Hw r. subst r. rewrite (derive_quiet_outcome _ _ Hw).
  split; [|split; [|split]].
  - intros o -> H.
    assert (Htest : level_is (risk_level o) "highest"
                    || (75 <=? nullish (risk_score o) 0) = true).
    { apply threshold_test. destruct H as [H|H]; [now left|right; now left]. }
    now rewrite Htest.
  - intros o -> Hs.
    assert (Htest : level_is (risk_level o) "highest"
                    || (75 <=? nullish (risk_score o) 0) = true).
    { apply threshold_test. right; left. exists 75. split; [exact Hs|lia]. }
    now rewrite Htest.
  - intros o -> Hs. rewrite Hs. cbn [nullish].
    destruct (level_is (risk_level o) "highest") eqn:Hl; cbn.
    + apply level_is_spec in Hl. split; [tauto|].
      intros _. now rewrite Hl.
    + assert (Hno : risk_level o <> Some "highest").
      { intros Hh. apply level_is_spec in Hh. congruence. }
      split; [|intros Hh; contradiction].
      destruct (level_is (risk_level o) "elevated"); cbn;
        (split; [discriminate|intros Hh; contradiction]).
  - intros ->. discriminate.
Qed.

Lemma high_risk_forces_refund_witness :
  deriveRecommendation (Sample.levelled "highest")
    [Sample.warning "issfr_1" false] [] =
    {| action := refund;
       reason := "High risk detected (level: highest, score: 0)." |}
  /\ deriveRecommendation (Sample.scored 75)
       [Sample.warning "issfr_1" false] [] =
     {| action := refund;
        reason := "High risk detected (level: n/a, score: 75)." |}
  /\ action (deriveRecommendation (Sample.scored 74) [] []) <> refund
  /\ action (deriveRecommendation (Sample.levelled "elevated") [] []) <> refund.
Proof.
  assert (Hquiet : forall warning : EarlyFraudWarning,
             In warning [Sample.warning "issfr_1" false] ->
             actionable warning = false)
    by (intros warning [<-|[]]; reflexivity).
  split; [|split; [|split]].
  - refine (proj1 (high_risk_forces_refund (Sample.levelled "highest")
                     [Sample.warning "issfr_1" false] [] eq_refl Hquiet)
              (Sample.outcome_of (Some "highest") None) eq_refl _).
    left. reflexivity.
  - refine (proj1 (high_risk_forces_refund (Sample.scored 75)
                     [Sample.warning "issfr_1" false] [] eq_refl Hquiet)
              (Sample.outcome_of None (Some 75)) eq_refl _).
    right. exists 75. split; [reflexivity|lia].
  - vm_compute. discriminate.
  - intros Hrefund.
    apply (proj1 (proj1 (proj1 (proj2 (proj2
             (high_risk_forces_refund (Sample.levelled "elevated") [] []
                eq_refl (fun warning (H : In warning []) => match H with end))))
             (Sample.outcome_of (Some "elevated") None) eq_refl eq_refl)))
      in Hrefund.
    discriminate Hrefund.
Defined.

(** C4: with no dispute, no actionable warning and the high-risk rule not
    met (level not ['highest'], score below 75), a charge whose outcome has
    [risk_level] ['elevated'] or a [risk_score] of at least 50 gives
    [manual_review] with the reason ['Elevated risk level. Review
    supporting evidence before issuing refund.'] (so does a score of
    exactly 50); anything else gives [monitor] with the reason ['No disputes
    or actionable warnings. Monitor the transaction for future signals.']
    (so does a score of 49 under a level that is not ['elevated']); and for
    empty inputs (no dispute, no warning, no outcome) the result is
    [monitor] with that default reason. *)
Theorem elevated_or_monitor
    (charge : Charge) (earlyFraudWarnings : list EarlyFraudWarning)
    (disputes : list Dispute) :
  disputes = [] ->
  (forall warning, In warning earlyFraudWarnings -> actionable warning = false) ->
  (forall o, outcome charge = Some o ->
     risk_level o <> Some "highest"
     /\ forall n, risk_score o = Some n -> n < 75) ->
  let r := deriveRecommendation charge earlyFraudWarnings disputes in
  (forall o,
     outcome charge = Some o ->
     risk_level o = Some "elevated"
     \/ (exists n, risk_score o = Some n /\ 50 <= n) ->
     r = {| action := manual_review;
            reason :=
              "Elevated risk level. Review supporting evidence before issuing refund." |})
  /\ ((forall o, outcome charge = Some o ->
         risk_level o <> Some "elevated"
         /\ forall n, risk_score o = Some n -> n < 50) ->
      r = {| action := monitor;
             reason :=
               "No disputes or actionable warnings. Monitor the transaction for future signals." |})
  /\ (forall o, outcome charge = Some o -> risk_score o = Some 50 ->
      action r = manual_review)
  /\ (forall o, outcome charge = Some o -> risk_score o = Some 49 ->
      risk_level o <> Some "elevated" -> action r = monitor)
  /\ (outcome charge = None -> earlyFraudWarnings = [] ->
      r = {| action := monitor;
             reason :=
               "No disputes or actionable warnings. Monitor the transaction for future signals." |}).
Proof.
  intros -> Hw Hhigh r. subst r. rewrite (derive_quiet_outcome _ _ Hw).
  destruct (outcome charge) as [o|].
  2:{ repeat split; try (intros o [=]); reflexivity. }
  destruct (Hhigh o eq_refl) as [Hlevel Hscore].
  assert (Hnot : level_is (risk_level o) "highest"
                 || (75 <=? nullish (risk_score o) 0) = false).
  { apply not_true_is_false. intros Htest. apply threshold_test in Htest.
    destruct Htest as [H|[[n [Hn H]]|[_ H]]]; [contradiction| |lia].
    specialize (Hscore n Hn). lia. }
  rewrite Hnot.
  assert (Hyes : risk_level o = Some "elevated"
                 \/ (exists n, risk_score o = Some n /\ 50 <= n) ->
                 level_is (risk_level o) "elevated"
                 || (50 <=? nullish (risk_score o) 0) = true).
  { intros H. apply threshold_test. destruct H as [H|H]; [now left|right; now left]. }
  assert (Hno : risk_level o <> Some "elevated" ->
                (forall n, risk_score o = Some n -> n < 50) ->
                level_is (risk_level o) "elevated"
                || (50 <=? nullish (risk_score o) 0) = false).
  { intros Hl Hs. apply not_true_is_false. intros Htest.
    apply threshold_test in Htest.
    destruct Htest as [H|[[n [Hn H]]|[_ H]]]; [contradiction| |lia].
    specialize (Hs n Hn). lia. }
  split; [|split; [|split; [|split]]].
  - intros o' [= <-] H. now rewrite (Hyes H).
  - intros H. destruct (H o eq_refl) as [Hl Hs]. now rewrite (Hno Hl Hs).
  - intros o' [= <-] Hs. rewrite Hyes; [reflexivity|].
    right. exists 50. split; [exact Hs|lia].
  - intros o' [= <-] Hs Hl. rewrite Hno; [reflexivity|exact Hl|].
    intros n Hn. rewrite Hs in Hn. injection Hn as <-. lia.
  - intros [=].
Qed.

Lemma elevated_or_monitor_witness :
  deriveRecommendation (Sample.levelled "elevated") [] [] =
    {| action := manual_review;
       reason :=
         "Elevated risk level. Review supporting evidence before issuing refund." |}
  /\ deriveRecommendation (Sample.scored 50) [] [] =
    {| action := manual_review;
       reason :=
         "Elevated risk level. Review supporting evidence before issuing refund." |}
  /\ deriveRecommendation (Sample.scored 49) [] [] =
    {| action := monitor;
       reason :=
         "No disputes or actionable warnings. Monitor the transaction for future signals." |}
  /\ deriveRecommendation Sample.bare [] [] =
    {| action := monitor;
       reason :=
         "No disputes or actionable warnings. Monitor the transaction for future signals." |}.
Proof.
  assert (Hquiet : forall warning : EarlyFraudWarning,
             In warning [] -> actionable warning = false) by (intros warning []).
  split; [|split; [|split]].
  - refine (proj1 (elevated_or_monitor (Sample.levelled "elevated") [] []
                     eq_refl Hquiet _)
              (Sample.outcome_of (Some "elevated") None) eq_refl _).
    + intros o [= <-]. split; [discriminate|intros n [=]].
    + left. reflexivity.
  - refine (proj1 (elevated_or_monitor (Sample.scored 50) [] []
                     eq_refl Hquiet _)
              (Sample.outcome_of None (Some 50)) eq_refl _).
    + intros o [= <-]. split; [discriminate|intros n [= <-]; lia].
    + right. exists 50. split; [reflexivity|lia].
  - refine (proj1 (proj2 (elevated_or_monitor (Sample.scored 49) [] []
                            eq_refl Hquiet _)) _).
    + intros o [= <-]. split; [discriminate|intros n [= <-]; lia].
    + intros o [= <-]. split; [discriminate|intros n [= <-]; lia].
  - refine (proj2 (proj2 (proj2 (proj2
              (elevated_or_monitor Sample.bare [] [] eq_refl Hquiet _))))
              eq_refl eq_refl).
    intros o [=].
Defined.

(** The five rows of the decision table. *)
Lemma deriveRecommendation_rows
    (charge : Charge) (earlyFraudWarnings : list EarlyFraudWarning)
    (disputes : list Dispute) :
  In (deriveRecommendation charge earlyFraudWarnings disputes)
     [ {| action := refund; reason := dispute_reason_text |};
       {| action := refund; reason := warning_reason_text |};
       {| action := refund;
          reason := high_risk_reason (riskLevelOf charge) (riskScoreOf charge) |};
       {| action := manual_review; reason := elevated_reason_text |};
       {| action := monitor; reason := monitor_reason_text |} ].
Proof.
  unfold deriveRecommendation.
  destruct (0 <? Z.of_nat (length disputes)); [now left|].
  destruct (some actionable earlyFraudWarnings); [now right; left|].
  destruct (level_is (riskLevelOf charge) "highest" || (75 <=? riskScoreOf charge));
    [now right; right; left|].
  destruct (level_is (riskLevelOf charge) "elevated" || (50 <=? riskScoreOf charge));
    [now right; right; right; left|now right; right; right; right; left].
Qed.

Lemma some_permutation (flags1 flags2 : list bool) :
  Permutation flags1 flags2 ->
  existsb (fun b => b) flags1 = existsb (fun b => b) flags2.
Proof.
  induction 1 as [|b l1 l2 _ IH|a b l|l1 l2 l3 _ IH1 _ IH2]; cbn.
  - reflexivity.
  - now rewrite IH.
  - now destruct a, b.
  - now rewrite IH1.
Qed.

Lemma some_actionable_flags (earlyFraudWarnings : list EarlyFraudWarning) :
  some actionable earlyFraudWarnings =
  existsb (fun b => b) (map actionable earlyFraudWarnings).
Proof.
  unfold some. induction earlyFraudWarnings as [|w l IH]; cbn; [reflexivity|].
  now rewrite IH.
Qed.

(** C6: the evaluator reads the dispute list only for its emptiness and each
    warning only for its [actionable] flag: two inputs whose charges have the
    same outcome, whose dispute lists are both empty or both non-empty, and
    whose warnings carry the same flags up to order, get the same
    recommendation. *)
Theorem evaluator_reads_flags_only
    (charge1 charge2 : Charge)
    (warnings1 warnings2 : list EarlyFraudWarning)
    (disputes1 disputes2 : list Dispute) :
  outcome charge1 = outcome charge2 ->
  (disputes1 = [] <-> disputes2 = []) ->
  Permutation (map actionable warnings1) (map actionable warnings2) ->
  deriveRecommendation charge1 warnings1 disputes1 =
  deriveRecommendation charge2 warnings2 disputes2.
Proof.
  intros Ho Hd Hp. unfold deriveRecommendation.
  rewrite !length_positive, !some_actionable_flags.
  rewrite (some_permutation _ _ Hp).
  unfold riskLevelOf, riskScoreOf. rewrite Ho.
  destruct disputes1 as [|x1 l1], disputes2 as [|x2 l2]; try reflexivity.
  - destruct Hd as [Hd _]. specialize (Hd eq_refl). discriminate.
  - destruct Hd as [_ Hd]. specialize (Hd eq_refl). discriminate.
Qed.

Lemma evaluator_reads_flags_only_witness :
  deriveRecommendation (Sample.scored 60)
    [Sample.warning "issfr_1" false; Sample.warning "issfr_2" true] [] =
  deriveRecommendation Sample.scored_elsewhere
    [Sample.warning "issfr_3" true; Sample.warning "issfr_4" false] [].
Proof.
  apply (evaluator_reads_flags_only (Sample.scored 60) Sample.scored_elsewhere
           [Sample.warning "issfr_1" false; Sample.warning "issfr_2" true]
           [Sample.warning "issfr_3" true; Sample.warning "issfr_4" false]
           [] []).
  - reflexivity.
  - split; reflexivity.
  - cbn. apply perm_swap.
Defined.

(** ** Reasoning about handler runs *)

Section Runs.

Context {World : Type}.

Lemma emits_ret {A : Type} P (Q : A -> Prop) (a : A) :
  Q a -> emits P Q (ret a : M World A).
Proof.
  intros Hq s. exists []. cbn. rewrite app_nil_r.
  repeat split. intros a' [= <-]. exact Hq.
Qed.

Lemma emits_throw {A : Type} P (Q : A -> Prop) (e : Thrown) :
  emits P Q (throw e : M World A).
Proof.
  intros s. exists []. cbn. rewrite app_nil_r.
  repeat split. intros a' [=].
Qed.

Lemma emits_emit P (Q : unit -> Prop) (ev : Event) :
  P ev = true -> Q tt -> emits P Q (emit ev : M World unit).
Proof.
  intros Hp Hq s. exists [ev]. cbn. rewrite Hp.
  repeat split. now intros [] _.
Qed.

Lemma emits_log P (Q : unit -> Prop) (level : LogLevel) (message : string) :
  P (EvLog level message) = true -> Q tt ->
  emits P Q (log level message : M World unit).
Proof. apply emits_emit. Qed.

Lemma emits_call {A : Type} P (Q : A -> Prop) (c : ApiCall)
    (request : World -> (Thrown + A) * World) :
  P (EvCall c) = true -> (forall a, Q a) -> emits P Q (call c request).
Proof.
  intros Hp Hq s. exists [EvCall c]. unfold call.
  destruct (request (world s)) as [r w]. cbn. rewrite Hp.
  repeat split. intros a _. apply Hq.
Qed.

Lemma emits_bind {A B : Type} P (Q1 : A -> Prop) (Q2 : B -> Prop)
    (m : M World A) (k : A -> M World B) :
  emits P Q1 m -> (forall a, Q1 a -> emits P Q2 (k a)) ->
  emits P Q2 (bind m k).
Proof.
  intros Hm Hk s. destruct (Hm s) as [t1 [Ht1 [Hp1 Hq1]]].
  unfold bind. destruct (m s) as [[e|a] s1]; cbn in *.
  - exists t1. repeat split; auto. intros b [=].
  - destruct (Hk a (Hq1 a eq_refl) s1) as [t2 [Ht2 [Hp2 Hq2]]].
    exists (t1 ++ t2)%list. rewrite Ht2, Ht1, app_assoc, forallb_app, Hp1, Hp2.
    repeat split. exact Hq2.
Qed.

Lemma emits_bind_any {A B : Type} P (Q : B -> Prop)
    (m : M World A) (k : A -> M World B) :
  emits P (fun _ => True) m -> (forall a, emits P Q (k a)) ->
  emits P Q (bind m k).
Proof. intros Hm Hk. apply (emits_bind P (fun _ => True)); auto. Qed.

Lemma emits_try_catch {A : Type} P (Q : A -> Prop)
    (m : M World A) (h : Thrown -> M World A) :
  emits P Q m -> (forall e, emits P Q (h e)) -> emits P Q (try_catch m h).
Proof.
  intros Hm Hh s. destruct (Hm s) as [t1 [Ht1 [Hp1 Hq1]]].
  unfold try_catch. destruct (m s) as [[e|a] s1]; cbn in *.
  - destruct (Hh e s1) as [t2 [Ht2 [Hp2 Hq2]]].
    exists (t1 ++ t2)%list. rewrite Ht2, Ht1, app_assoc, forallb_app, Hp1, Hp2.
    repeat split. exact Hq2.
  - exists t1. repeat split; auto.
Qed.

Lemma emits_weaken {A : Type} (P P' : Event -> bool) (Q Q' : A -> Prop)
    (m : M World A) :
  (forall ev, P ev = true -> P' ev = true) -> (forall a, Q a -> Q' a) ->
  emits P Q m -> emits P' Q' m.
Proof.
  intros Hp Hq Hm s. destruct (Hm s) as [t [Ht [Hpt Hqa]]].
  exists t. repeat split; auto.
  rewrite forallb_forall in *. auto.
Qed.

Lemma bind_ret {A B : Type} (a : A) (k : A -> M World B) :
  bind (ret a) k = k a.
Proof. reflexivity. Qed.

End Runs.

(** One step through a handler body whose result is left unconstrained. *)
Ltac emits_step :=
  cbv zeta;
  lazymatch goal with
  | |- emits _ _ (ret _) => apply emits_ret; exact I
  | |- emits _ _ (throw _) => apply emits_throw
  | |- emits _ _ (log _ _) => apply emits_log; [reflexivity|exact I]
  | |- emits _ _ (call _ _) => apply emits_call; [reflexivity|intros; exact I]
  | |- emits _ _ (bind _ _) => apply emits_bind_any; [|intros ?]
  | |- emits _ _ (match ?x with _ => _ end) => destruct x
  end.

(** Charge resolution only logs and looks up, and leaves the [radar]
    section of the result unset. *)
Lemma resolveCharge_emits {World : Type} (stripe : Stripe World)
    (input : FraudInsightInput) :
  emits resolving radar_unset (resolveCharge stripe input).
Proof.
  unfold resolveCharge, radar_unset.
  repeat first
    [ apply emits_ret; cbn; solve [auto]
    | lazymatch goal with
      | |- emits _ _ (@bind _ Locals _ _ _) =>
          apply (emits_bind _ radar_unset); unfold radar_unset; [|intros ? ?]
      end
    | emits_step ].
Qed.

Lemma resolving_not_derive (t : list Event) :
  forallb resolving t = true ->
  forall charge warnings disputes, ~ In (EvDerive charge warnings disputes) t.
Proof.
  intros Ht charge warnings disputes Hin.
  rewrite forallb_forall in Ht. specialize (Ht _ Hin). discriminate.
Qed.

(** Without a usable identifier nothing is looked up and no charge is
    resolved. *)
Lemma resolveCharge_without_identifiers {World : Type} (stripe : Stripe World)
    (input : FraudInsightInput) (s : State World) :
  truthy (payment_intent_id input) = false ->
  truthy (charge_id_in input) = false ->
  exists vars,
    resolveCharge stripe input s =
      (inr vars,
       {| world := world s;
          trace := (trace s ++ [EvLog debug "Building fraud insight"])%list |})
    /\ l_charge vars = None.
Proof.
  intros Hp Hc. unfold resolveCharge, as_truthy. rewrite Hp, Hc.
  eexists. split; reflexivity.
Qed.

(** A lookup that throws during charge resolution is not turned into the
    fallback: the exception leaves [buildFraudInsight] as it is. *)
Lemma lookup_failure_propagates {World : Type} (stripe : Stripe World)
    (input : FraudInsightInput) (s s1 : State World) (e : Thrown) :
  resolveCharge stripe input s = (inl e, s1) ->
  buildFraudInsight stripe input s = (inl e, s1).
Proof.
  intros Hres. unfold buildFraudInsight, bind at 1. now rewrite Hres.
Qed.

Lemma fraud_tool_without_identifiers {World : Type}
    (JSON_stringify : FraudInsightResult -> string) (stripe : Stripe World)
    (input : FraudInsightInput) (s : State World) :
  truthy (payment_intent_id input) = false ->
  truthy (charge_id_in input) = false ->
  stripe_fraud_insight JSON_stringify stripe input s =
    (inl (JsError missing_ids_fraud_message),
     {| world := world s;
        trace := (trace s ++
                  [ EvLog info "Invocation received";
                    EvLog warn "Missing identifiers for fraud insight request";
                    EvLog error "Fraud insight tool failed" ])%list |}).
Proof.
  intros Hp Hc. unfold stripe_fraud_insight. rewrite Hp, Hc. cbn.
  now rewrite <- !app_assoc.
Qed.

Lemma refund_tool_without_identifiers {World : Type} (stripe : Stripe World)
    (input : RefundInput) (s : State World) :
  truthy (refund_in_payment_intent_id input) = false ->
  truthy (refund_in_charge_id input) = false ->
  stripe_create_refund stripe input s =
    (inl (JsError missing_ids_refund_message),
     {| world := world s;
        trace := (trace s ++
                  [ EvLog info "Invocation received";
                    EvLog warn "Missing identifiers for refund request";
                    EvLog error "Refund tool failed" ])%list |}).
Proof.
  intros Hp Hc. unfold stripe_create_refund. rewrite Hp, Hc. cbn.
  now rewrite <- !app_assoc.
Qed.

(** C8: the fraud-insight tool and the refund tool both throw when neither a
    payment-intent identifier nor a charge identifier is given (absent or
    empty): the error names the two identifiers, the upstream state is
    untouched and the run holds no Stripe request. A run that returns had at
    least one of the two identifiers. *)
Theorem tools_require_an_identifier {World : Type}
    (JSON_stringify : FraudInsightResult -> string) (stripe : Stripe World)
    (s : State World) :
  (forall input : FraudInsightInput,
     let run := stripe_fraud_insight JSON_stringify stripe input s in
     (truthy (payment_intent_id input) = false ->
      truthy (charge_id_in input) = false ->
      fst run = inl (JsError
        "You must provide either payment_intent_id or charge_id to retrieve fraud insights.")
      /\ world (snd run) = world s
      /\ exists t, trace (snd run) = (trace s ++ t)%list
                   /\ forallb (fun ev => negb (is_call ev)) t = true)
     /\ (forall result, fst run = inr result ->
         truthy (payment_intent_id input) = true
         \/ truthy (charge_id_in input) = true))
  /\ (forall input : RefundInput,
     let run := stripe_create_refund stripe input s in
     (truthy (refund_in_payment_intent_id input) = false ->
      truthy (refund_in_charge_id input) = false ->
      fst run = inl (JsError
        "You must provide either payment_intent_id or charge_id to create a refund.")
      /\ world (snd run) = world s
      /\ exists t, trace (snd run) = (trace s ++ t)%list
                   /\ forallb (fun ev => negb (is_call ev)) t = true)
     /\ (forall result, fst run = inr result ->
         truthy (refund_in_payment_intent_id input) = true
         \/ truthy (refund_in_charge_id input) = true)).
Proof.
  split; intros input run; subst run.
  - split.
    + intros Hp Hc.
      rewrite (fraud_tool_without_identifiers _ _ _ _ Hp Hc). cbn.
      repeat split. eexists. split; reflexivity.
    + intros result Hrun.
      destruct (truthy (payment_intent_id input)) eqn:Hp; [now left|].
      destruct (truthy (charge_id_in input)) eqn:Hc; [now right|].
      rewrite (fraud_tool_without_identifiers _ _ _ _ Hp Hc) in Hrun.
      discriminate.
  - split.
    + intros Hp Hc.
      rewrite (refund_tool_without_identifiers _ _ _ Hp Hc). cbn.
      repeat split. eexists. split; reflexivity.
    + intros result Hrun.
      destruct (truthy (refund_in_payment_intent_id input)) eqn:Hp; [now left|].
      destruct (truthy (refund_in_charge_id input)) eqn:Hc; [now right|].
      rewrite (refund_tool_without_identifiers _ _ _ Hp Hc) in Hrun.
      discriminate.
Qed.

Lemma tools_require_an_identifier_witness :
  fst (stripe_fraud_insight (fun _ => "{}") Sample.client Sample.no_ids
         Sample.start) =
    inl (JsError
      "You must provide either payment_intent_id or charge_id to retrieve fraud insights.")
  /\ fst (stripe_create_refund Sample.client Sample.refund_no_ids Sample.start) =
    inl (JsError
      "You must provide either payment_intent_id or charge_id to create a refund.").
Proof.
  destruct (tools_require_an_identifier (fun _ => "{}") Sample.client
              Sample.start) as [Hfraud Hrefund].
  split.
  - exact (proj1 (proj1 (Hfraud Sample.no_ids) eq_refl eq_refl)).
  - exact (proj1 (proj1 (Hrefund Sample.refund_no_ids) eq_refl eq_refl)).
Defined.

Lemma not_dispute_reason
    (charge : Charge) (earlyFraudWarnings : list EarlyFraudWarning) :
  reason (deriveRecommendation charge earlyFraudWarnings []) <>
  dispute_reason_text.
Proof.
  rewrite derive_no_disputes.
  destruct (some actionable earlyFraudWarnings); [discriminate|].
  destruct (level_is (riskLevelOf charge) "highest" || (75 <=? riskScoreOf charge));
    [discriminate|].
  destruct (level_is (riskLevelOf charge) "elevated" || (50 <=? riskScoreOf charge));
    discriminate.
Qed.

Lemma disputes_untouched_spec (t : list Event) :
  forallb disputes_untouched t = true ->
  (forall charge limit, ~ In (EvCall (DisputesList charge limit)) t)
  /\ (forall charge warnings disputes,
        In (EvDerive charge warnings disputes) t -> disputes = []).
Proof.
  rewrite forallb_forall. intros Ht. split.
  - intros charge limit Hin. specialize (Ht _ Hin). discriminate.
  - intros charge warnings disputes Hin. specialize (Ht _ Hin).
    destruct disputes; [reflexivity|discriminate].
Qed.

Lemma buildFraudInsight_without_events {World : Type} (stripe : Stripe World)
    (input : FraudInsightInput) :
  include_events input = false ->
  emits disputes_untouched without_dispute_rule (buildFraudInsight stripe input).
Proof.
  intros Hev. unfold buildFraudInsight.
  apply (emits_bind _ radar_unset).
  { apply (emits_weaken resolving disputes_untouched radar_unset radar_unset);
      [|auto|apply resolveCharge_emits].
    intros [level message|[]|]; cbn; congruence. }
  intros vars Hradar. destruct (l_charge vars) as [charge|].
  - rewrite Hev. cbv zeta.
    emits_step; [repeat emits_step|].
    emits_step; [repeat emits_step|].
    rewrite bind_ret.
    emits_step; [repeat emits_step|].
    emits_step; [repeat emits_step|].
    emits_step; [apply emits_emit; [reflexivity|exact I]|].
    apply emits_ret. split.
    + apply not_dispute_reason.
    + cbn. intros radar [= <-]. reflexivity.
  - emits_step; [repeat emits_step|].
    apply emits_ret. split.
    + discriminate.
    + cbn. unfold radar_unset in Hradar. rewrite Hradar. discriminate.
Qed.

(** C9: with [include_events = false], [buildFraudInsight] issues no
    [disputes.list] request and hands [deriveRecommendation] the empty
    dispute list, so that a result it returns never carries the
    dispute-triggered refund (and lists no dispute), whatever disputes the
    upstream account holds for the charge. *)
Theorem without_events_no_dispute_rule {World : Type} (stripe : Stripe World)
    (input : FraudInsightInput) (s : State World) :
  include_events input = false ->
  exists t : list Event,
    trace (snd (buildFraudInsight stripe input s)) = (trace s ++ t)%list
    /\ (forall charge limit, ~ In (EvCall (DisputesList charge limit)) t)
    /\ (forall charge warnings disputes,
          In (EvDerive charge warnings disputes) t -> disputes = [])
    /\ (forall result,
          fst (buildFraudInsight stripe input s) = inr result ->
          recommendation result <>
            {| action := refund; reason := dispute_reason_text |}
          /\ forall radar,
               result_radar result = Some radar -> radar_disputes radar = []).
Proof.
  intros Hev.
  destruct (buildFraudInsight_without_events stripe input Hev s)
    as [t [Ht [Hp Hq]]].
  exists t. destruct (disputes_untouched_spec t Hp) as [Hcalls Hderive].
  repeat split; auto.
  - intros Heq. destruct (Hq result H) as [Hreason _].
    apply Hreason. now rewrite Heq.
  - apply (Hq result H).
Qed.

Lemma without_events_no_dispute_rule_witness :
  fst (disputes_list Sample.client "ch_disputed" 100 0%nat) =
    inr [Sample.a_dispute]
  /\ exists result,
       fst (buildFraudInsight Sample.client
              (Sample.by_charge "ch_disputed" false) Sample.start) = inr result
       /\ recommendation result <>
          {| action := refund; reason := dispute_reason_text |}.
Proof.
  split; [reflexivity|].
  destruct (without_events_no_dispute_rule Sample.client
              (Sample.by_charge "ch_disputed" false) Sample.start eq_refl)
    as [t [_ [_ [_ Hresult]]]].
  eexists. split; [reflexivity|].
  apply Hresult. reflexivity.
Defined.

(** ** The sanitizer *)

Lemma has_In (set : list string) (key : string) :
  has set key = true <-> In key set.
Proof.
  unfold has. rewrite existsb_exists. split.
  - intros [k [Hin Heq]]. apply String.eqb_eq in Heq. now subst.
  - intros Hin. exists key. split; [exact Hin|apply String.eqb_refl].
Qed.

Lemma has_false (set : list string) (key : string) :
  has set key = false <-> ~ In key set.
Proof.
  rewrite <- has_In. destruct (has set key); split; congruence.
Qed.




Lemma obj_define_fresh (obj : JsObj) (key : string) (value : JsValue) :
  ~ In key (keys obj) -> obj_define obj key value = (obj ++ [(key, value)])%list.
Proof.
  induction obj as [|[k v] rest IH]; cbn; intros Hfresh; [reflexivity|].
  destruct (String.eqb_spec k key) as [->|Hne].
  - exfalso. apply Hfresh. now left.
  - rewrite IH; [reflexivity|]. intros Hin. apply Hfresh. now right.
Qed.

Lemma obj_set_fresh (obj : JsObj) (key : string) (value : JsValue) :
  ~ In key (keys obj) ->
  obj_set obj key value =
  (obj ++ filter copied [(key, value)])%list.
Proof.
  intros Hfresh. unfold obj_set, copied. cbn [filter fst].
  destruct (key =? "__proto__")%string; cbn [negb].
  - now rewrite app_nil_r.
  - now apply obj_define_fresh.
Qed.

Lemma fold_left_pointwise {A B : Type} (f g : A -> B -> A) (l : list B) (a : A) :
  (forall x y, f x y = g x y) -> fold_left f l a = fold_left g l a.
Proof.
  intros Hfg. revert a. induction l as [|b l IH]; intros a; cbn; [reflexivity|].
  now rewrite IH, Hfg.
Qed.

(** Assigning the entries of an object with distinct property names, one
    after the other, to properties a target does not have yet appends them
    in order, but for an entry named ["__proto__"], which is not copied. *)
Lemma fold_obj_set_fresh (f : string -> JsValue -> JsValue)
    (entries sanitized : JsObj) :
  distinct (keys entries) = true ->
  (forall key, In key (keys entries) -> ~ In key (keys sanitized)) ->
  fold_left (fun acc kv => obj_set acc (fst kv) (f (fst kv) (snd kv)))
            entries sanitized =
  (sanitized
   ++ map (fun kv => (fst kv, f (fst kv) (snd kv))) (filter copied entries))%list.
Proof.
  revert sanitized. induction entries as [|[k v] rest IH]; intros sanitized Hd Hfresh.
  - cbn. now rewrite app_nil_r.
  - cbn in Hd. apply andb_true_iff in Hd. destruct Hd as [Hk Hd].
    apply negb_true_iff, has_false in Hk.
    cbn [fold_left fst snd].
    rewrite obj_set_fresh by (apply Hfresh; now left).
    rewrite IH; [|exact Hd|].
    + cbn [filter]. unfold copied at 1 3. cbn [fst].
      destruct (k =? "__proto__")%string; cbn [negb filter map fst snd app].
      * now rewrite app_nil_r.
      * now rewrite <- app_assoc.
    + intros key Hin. unfold keys. rewrite map_app, in_app_iff.
      intros [Hacc|Hnew].
      * apply (Hfresh key); [now right|exact Hacc].
      * apply Hk. unfold copied in Hnew. cbn [filter fst] in Hnew.
        destruct (k =? "__proto__")%string; cbn in Hnew; [destruct Hnew|].
        destruct Hnew as [<-|[]]. exact Hin.
Qed.




Section SanitizerFacts.

Variable toLowerCase : string -> string.


Hypothesis lowered_not_apiKey : forall key, toLowerCase key <> "apiKey".


End SanitizerFacts.




(** * Further properties of the code *)

(** ** The evaluator as a whole *)

Lemma some_true_iff {A : Type} (p : A -> bool) (l : list A) :
  some p l = true <-> exists x, In x l /\ p x = true.
Proof. unfold some. apply existsb_exists. Qed.

Lemma nonempty_spec {A : Type} (l : list A) : nonempty l = true <-> l <> [].
Proof. destruct l; cbn; split; congruence. Qed.

(** The action in terms of the four tests of the evaluator. *)
Lemma derive_action_tests
    (charge : Charge) (earlyFraudWarnings : list EarlyFraudWarning)
    (disputes : list Dispute) :
  action (deriveRecommendation charge earlyFraudWarnings disputes) =
  if nonempty disputes || some actionable earlyFraudWarnings
     || (level_is (riskLevelOf charge) "highest" || (75 <=? riskScoreOf charge))
  then refund
  else if level_is (riskLevelOf charge) "elevated" || (50 <=? riskScoreOf charge)
       then manual_review
       else monitor.
Proof.
  unfold deriveRecommendation. rewrite length_positive.
  destruct disputes; [|reflexivity]. cbn [negb nonempty orb].
  destruct (some actionable earlyFraudWarnings); [reflexivity|]. cbn [orb].
  destruct (level_is (riskLevelOf charge) "highest" || (75 <=? riskScoreOf charge));
    [reflexivity|].
  now destruct (level_is (riskLevelOf charge) "elevated" || (50 <=? riskScoreOf charge)).
Qed.

Lemma alarming_test
    (charge : Charge) (earlyFraudWarnings : list EarlyFraudWarning)
    (disputes : list Dispute) :
  nonempty disputes || some actionable earlyFraudWarnings
    || (level_is (riskLevelOf charge) "highest" || (75 <=? riskScoreOf charge)) = true
  <-> disputes <> []
      \/ (exists warning, In warning earlyFraudWarnings /\ actionable warning = true)
      \/ riskLevelOf charge = Some "highest"
      \/ 75 <= riskScoreOf charge.
Proof.
  rewrite !orb_true_iff, nonempty_spec, some_true_iff, level_is_spec, Z.leb_le.
  tauto.
Qed.

(** X1: which inputs get which action, read on the fields of the charge.
    With the level [charge.outcome.risk_level] (absent without outcome) and
    the score [charge.outcome.risk_score] (0 when absent): [refund] is
    returned exactly when there is a dispute, an actionable warning, the
    level ['highest'] or a score of at least 75; [monitor] exactly when
    there is none of these, the level is not ['elevated'] and the score is
    below 50; [manual_review] in the remaining cases. *)
Theorem action_characterisation
    (charge : Charge) (earlyFraudWarnings : list EarlyFraudWarning)
    (disputes : list Dispute) :
  let r := deriveRecommendation charge earlyFraudWarnings disputes in
  let level :=
    match outcome charge with
    | Some o => risk_level o
    | None => None
    end in
  let score :=
    match outcome charge with
    | Some o => match risk_score o with Some n => n | None => 0 end
    | None => 0
    end in
  let alarming :=
    disputes <> []
    \/ (exists warning, In warning earlyFraudWarnings /\ actionable warning = true)
    \/ level = Some "highest"
    \/ 75 <= score in
  let raised := level = Some "elevated" \/ 50 <= score in
  (action r = refund <-> alarming)
  /\ (action r = manual_review <-> ~ alarming /\ raised)
  /\ (action r = monitor <-> ~ alarming /\ ~ raised).
Proof.
  cbv zeta.
  change (match outcome charge with
          | Some o => risk_level o
          | None => None
          end) with (riskLevelOf charge).
  change (match outcome charge with
          | Some o => match risk_score o with Some n => n | None => 0 end
          | None => 0
          end) with (riskScoreOf charge).
  rewrite derive_action_tests.
  rewrite <- alarming_test, <- elevated_test.
  destruct (nonempty disputes || some actionable earlyFraudWarnings
            || (level_is (riskLevelOf charge) "highest"
                || (75 <=? riskScoreOf charge)));
    destruct (level_is (riskLevelOf charge) "elevated"
              || (50 <=? riskScoreOf charge));
    repeat split; try discriminate; try tauto; intros; try easy;
    intuition discriminate.
Qed.

Lemma action_characterisation_witness :
  action (deriveRecommendation (Sample.levelled "highest") [] []) = refund
  /\ action (deriveRecommendation (Sample.levelled "elevated") [] []) =
     manual_review
  /\ action (deriveRecommendation (Sample.scored 50) [] []) = manual_review
  /\ action (deriveRecommendation (Sample.levelled "normal") [] []) = monitor.
Proof.
  split; [|split; [|split]].
  - apply (proj1 (action_characterisation (Sample.levelled "highest") [] [])).
    right; right; left. reflexivity.
  - apply (proj1 (proj2 (action_characterisation
                           (Sample.levelled "elevated") [] []))).
    split; [|left; reflexivity].
    intros [H|[[warning [[] _]]|[H|H]]];
      [now apply H|discriminate H|now apply H].
  - apply (proj1 (proj2 (action_characterisation (Sample.scored 50) [] []))).
    split; [|right; discriminate].
    intros [H|[[warning [[] _]]|[H|H]]];
      [now apply H|discriminate H|now apply H].
  - apply (proj2 (proj2 (action_characterisation
                           (Sample.levelled "normal") [] []))).
    split.
    + intros [H|[[warning [[] _]]|[H|H]]];
        [now apply H|discriminate H|now apply H].
    + intros [H|H]; [discriminate H|now apply H].
Defined.

(** X2: the evaluator is monotone in the evidence. When a second input has
    a dispute whenever the first has one, an actionable warning whenever
    the first has one, a risk level ranked at least as high and a risk
    score at least as high, its action is at least as strong
    ([monitor] < [manual_review] < [refund]). *)
Theorem severity_monotone
    (charge1 charge2 : Charge)
    (warnings1 warnings2 : list EarlyFraudWarning)
    (disputes1 disputes2 : list Dispute) :
  (disputes1 <> [] -> disputes2 <> []) ->
  (some actionable warnings1 = true -> some actionable warnings2 = true) ->
  level_rank (riskLevelOf charge1) <= level_rank (riskLevelOf charge2) ->
  riskScoreOf charge1 <= riskScoreOf charge2 ->
  severity (action (deriveRecommendation charge1 warnings1 disputes1))
  <= severity (action (deriveRecommendation charge2 warnings2 disputes2)).
Proof.
  intros Hd Hw Hl Hs. rewrite !derive_action_tests.
  rewrite <- !nonempty_spec in Hd. unfold level_rank in Hl.
  destruct (nonempty disputes2);
    [destruct (nonempty disputes1 || some actionable warnings1
               || (level_is (riskLevelOf charge1) "highest"
                   || (75 <=? riskScoreOf charge1)));
     [cbn; lia|
      destruct (level_is (riskLevelOf charge1) "elevated"
                || (50 <=? riskScoreOf charge1)); cbn; lia]|].
  destruct (nonempty disputes1); [specialize (Hd eq_refl); discriminate|].
  destruct (some actionable warnings2);
    [destruct (false || some actionable warnings1
               || (level_is (riskLevelOf charge1) "highest"
                   || (75 <=? riskScoreOf charge1)));
     [cbn; lia|
      destruct (level_is (riskLevelOf charge1) "elevated"
                || (50 <=? riskScoreOf charge1)); cbn; lia]|].
  destruct (some actionable warnings1); [specialize (Hw eq_refl); discriminate|].
  cbn [orb].
  destruct (level_is (riskLevelOf charge1) "highest"),
           (level_is (riskLevelOf charge1) "elevated"),
           (level_is (riskLevelOf charge2) "highest"),
           (level_is (riskLevelOf charge2) "elevated");
    try lia;
    destruct (Z.leb_spec 75 (riskScoreOf charge1)),
             (Z.leb_spec 75 (riskScoreOf charge2)),
             (Z.leb_spec 50 (riskScoreOf charge1)),
             (Z.leb_spec 50 (riskScoreOf charge2));
    cbn; lia.
Qed.

Lemma severity_monotone_witness :
  severity (action (deriveRecommendation (Sample.scored 49) [] []))
  <= severity (action (deriveRecommendation (Sample.scored 60)
                         [Sample.warning "issfr_1" false] [])).
Proof.
  apply (severity_monotone (Sample.scored 49) (Sample.scored 60)
           [] [Sample.warning "issfr_1" false] [] []).
  - intros H. exact H.
  - discriminate.
  - vm_compute. discriminate.
  - vm_compute. discriminate.
Defined.

Lemma derive_by_tests
    (charge : Charge) (earlyFraudWarnings : list EarlyFraudWarning)
    (disputes : list Dispute) :
  deriveRecommendation charge earlyFraudWarnings disputes =
  match disputes with
  | _ :: _ => {| action := refund; reason := dispute_reason_text |}
  | [] => deriveRecommendation charge earlyFraudWarnings []
  end.
Proof.
  destruct disputes as [|d l]; [reflexivity|].
  unfold deriveRecommendation. now rewrite length_positive.
Qed.

Lemma high_risk_reason_head (riskLevel : option string) (riskScore : Z) :
  exists rest, high_risk_reason riskLevel riskScore = String "H" rest.
Proof. eexists. reflexivity. Qed.

(** X3: the reason tells which rule fired. The dispute text is returned
    exactly when there is a dispute, the warning text exactly when there is
    none but a warning is actionable, the elevated text exactly with
    [manual_review], the default text exactly with [monitor], and every
    other [refund] carries the text that quotes level and score. *)
Theorem reason_identifies_rule
    (charge : Charge) (earlyFraudWarnings : list EarlyFraudWarning)
    (disputes : list Dispute) :
  let r := deriveRecommendation charge earlyFraudWarnings disputes in
  (reason r = dispute_reason_text <-> disputes <> [])
  /\ (reason r = warning_reason_text <->
      disputes = [] /\ some actionable earlyFraudWarnings = true)
  /\ (reason r = elevated_reason_text <-> action r = manual_review)
  /\ (reason r = monitor_reason_text <-> action r = monitor)
  /\ (reason r = high_risk_reason (riskLevelOf charge) (riskScoreOf charge) <->
      action r = refund /\ disputes = []
      /\ some actionable earlyFraudWarnings = false).
Proof.
  cbv zeta. rewrite derive_by_tests.
  destruct (high_risk_reason_head (riskLevelOf charge) (riskScoreOf charge))
    as [rest Hhead].
  destruct disputes as [|d l].
  - rewrite derive_no_disputes.
    destruct (some actionable earlyFraudWarnings);
      [|destruct (level_is (riskLevelOf charge) "highest"
                  || (75 <=? riskScoreOf charge));
        [|destruct (level_is (riskLevelOf charge) "elevated"
                    || (50 <=? riskScoreOf charge))]];
      cbn [action reason]; rewrite ?Hhead;
      repeat split; try discriminate; try congruence;
      intros; intuition (try discriminate; try congruence).
  - cbn [action reason]; rewrite ?Hhead.
    repeat split; try discriminate; try congruence;
      intros; intuition (try discriminate; try congruence).
Qed.

(** ** What [buildFraudInsight] returns *)

Lemma actionable_summaries (earlyFraudWarnings : list EarlyFraudWarning) :
  existsb es_actionable (map summarizeEarlyFraudWarning earlyFraudWarnings) =
  some actionable earlyFraudWarnings.
Proof.
  unfold some. induction earlyFraudWarnings as [|w l IH]; cbn; [reflexivity|].
  now rewrite IH.
Qed.

Lemma derive_from_radar
    (charge : Charge) (earlyFraudWarnings : list EarlyFraudWarning)
    (disputes : list Dispute) (reviewed : list ReviewSummary)
    (refunded : list RefundSummary) (kind message : option string) :
  deriveRecommendation charge earlyFraudWarnings disputes =
  recommend_from_radar
    {| early_fraud_warnings := map summarizeEarlyFraudWarning earlyFraudWarnings;
       reviews := reviewed;
       radar_disputes := map summarizeDispute disputes;
       radar_refunds := refunded;
       radar_risk_level := riskLevelOf charge;
       radar_risk_score :=
         match outcome charge with
         | Some o => risk_score o
         | None => None
         end;
       radar_outcome_type := kind;
       radar_seller_message := message |}.
Proof.
  unfold recommend_from_radar, deriveRecommendation. cbn.
  rewrite length_positive, actionable_summaries.
  replace (nullish match outcome charge with
                   | Some o => risk_score o
                   | None => None
                   end 0) with (riskScoreOf charge)
    by (unfold riskScoreOf; now destruct (outcome charge)).
  destruct disputes; reflexivity.
Qed.

(** One step through a handler body, carrying [resolved] across the
    assignments to the local variables. *)
Ltac resolved_step :=
  first
    [ apply emits_ret; unfold resolved in *; cbn in *;
      repeat match goal with
             | E : l_charge ?v = _ |- context [l_charge ?v] => rewrite E
             end;
      solve [intuition auto]
    | lazymatch goal with
      | |- emits _ _ (@bind _ Locals _ _ _) =>
          apply (emits_bind _ resolved); [|intros ? ?]
      | |- emits _ _ (match ?x with _ => _ end) =>
          let E := fresh "E" in
          destruct x eqn:E;
          try (unfold resolved in *; rewrite E in *)
      end
    | emits_step ].

Lemma resolveCharge_resolved {World : Type} (stripe : Stripe World)
    (input : FraudInsightInput) :
  emits resolving resolved (resolveCharge stripe input).
Proof.
  unfold resolveCharge. repeat resolved_step.
Qed.

Lemma resolving_reads_only (ev : Event) :
  resolving ev = true -> reads_only ev = true.
Proof. destruct ev as [level message|[]|]; cbn; congruence. Qed.

Lemma buildFraudInsight_consistent {World : Type} (stripe : Stripe World)
    (input : FraudInsightInput) :
  emits reads_only insight_consistent (buildFraudInsight stripe input).
Proof.
  unfold buildFraudInsight.
  apply (emits_bind _ resolved).
  { apply (emits_weaken resolving reads_only resolved resolved);
      [exact resolving_reads_only|auto|apply resolveCharge_resolved]. }
  intros vars [Hradar Hcharge].
  destruct (l_charge vars) as [charge|].
  - cbv zeta.
    emits_step; [repeat emits_step|].
    emits_step; [repeat emits_step|].
    emits_step; [repeat emits_step|].
    emits_step; [repeat emits_step|].
    emits_step; [repeat emits_step|].
    emits_step; [apply emits_emit; [reflexivity|exact I]|].
    apply emits_ret. unfold insight_consistent.
    assert (Hsummary :
              result_charge
                match result_charge (l_result vars) with
                | Some _ => l_result vars
                | None => set_charge (l_result vars) (summarizeCharge charge)
                end = Some (summarizeCharge charge)).
    { destruct Hcharge as [Hc|Hc]; rewrite Hc; [reflexivity|exact Hc]. }
    cbn. rewrite Hsummary. cbn.
    split; [apply derive_from_radar|split; reflexivity].
  - emits_step; [repeat emits_step|].
    apply emits_ret. unfold insight_consistent. cbn.
    now rewrite Hcharge, Hradar.
Qed.

Lemma recommend_from_radar_rows (radar : RadarInsight) :
  In (recommend_from_radar radar)
     [ {| action := refund; reason := dispute_reason_text |};
       {| action := refund; reason := warning_reason_text |};
       {| action := refund;
          reason := high_risk_reason (radar_risk_level radar)
                      (nullish (radar_risk_score radar) 0) |};
       {| action := manual_review; reason := elevated_reason_text |};
       {| action := monitor; reason := monitor_reason_text |} ].
Proof.
  unfold recommend_from_radar. cbv zeta.
  destruct (nonempty (radar_disputes radar)); [now left|].
  destruct (existsb es_actionable (early_fraud_warnings radar)); [now right; left|].
  destruct (level_is (radar_risk_level radar) "highest"
            || (75 <=? nullish (radar_risk_score radar) 0));
    [now right; right; left|].
  destruct (level_is (radar_risk_level radar) "elevated"
            || (50 <=? nullish (radar_risk_score radar) 0));
    [now right; right; right; left|now right; right; right; right; left].
Qed.

(** X4: the sections of a returned insight fit together. A result either
    has neither a charge nor a radar section, and then recommends the
    manual-review fallback; or it has both, the radar section repeats the
    risk level and score of the charge summary, and the recommendation is
    the decision table read on the returned radar section: a listed dispute
    gives the dispute refund, else a listed actionable warning gives the
    warning refund, else level and score decide. *)
Theorem insight_sections_agree {World : Type} (stripe : Stripe World)
    (input : FraudInsightInput) (s : State World)
    (result : FraudInsightResult) :
  fst (buildFraudInsight stripe input s) = inr result ->
  match result_charge result, result_radar result with
  | None, None => recommendation result = no_charge_recommendation
  | Some summary, Some radar =>
      recommendation result = recommend_from_radar radar
      /\ radar_risk_level radar =
         match cs_outcome summary with
         | Some o => risk_level o
         | None => None
         end
      /\ radar_risk_score radar =
         match cs_outcome summary with
         | Some o => risk_score o
         | None => None
         end
  | _, _ => False
  end.
Proof.
  intros Hrun.
  destruct (buildFraudInsight_consistent stripe input s) as [t [_ [_ Hq]]].
  exact (Hq result Hrun).
Qed.

Lemma insight_sections_agree_witness :
  exists result radar,
    fst (buildFraudInsight Sample.client (Sample.by_charge "ch_disputed" true)
           Sample.start) = inr result
    /\ result_radar result = Some radar
    /\ recommendation result = recommend_from_radar radar
    /\ action (recommendation result) = refund.
Proof.
  pose proof (insight_sections_agree Sample.client
                (Sample.by_charge "ch_disputed" true) Sample.start _ eq_refl)
    as H.
  eexists. eexists. split; [reflexivity|]. split; [reflexivity|].
  split; [exact (proj1 H)|reflexivity].
Defined.

(** X5: the placeholder never leaves [buildFraudInsight]: the
    recommendation of a returned result is not the baseline
    ['Baseline recommendation before risk analysis.'] the result starts
    with. *)
Theorem baseline_never_returned {World : Type} (stripe : Stripe World)
    (input : FraudInsightInput) (s : State World)
    (result : FraudInsightResult) :
  fst (buildFraudInsight stripe input s) = inr result ->
  reason (recommendation result) <>
  "Baseline recommendation before risk analysis.".
Proof.
  intros Hrun.
  destruct (buildFraudInsight_consistent stripe input s) as [t [_ [_ Hq]]].
  specialize (Hq result Hrun). unfold insight_consistent in Hq.
  destruct (result_charge result) as [summary|],
           (result_radar result) as [radar|]; try contradiction.
  - destruct Hq as [Hq _]. rewrite Hq.
    pose proof (recommend_from_radar_rows radar) as Hrows.
    destruct (high_risk_reason_head (radar_risk_level radar)
                (nullish (radar_risk_score radar) 0)) as [rest Hhead].
    cbn [In] in Hrows. rewrite Hhead in Hrows.
    destruct Hrows as [<-|[<-|[<-|[<-|[<-|[]]]]]]; discriminate.
  - rewrite Hq. discriminate.
Qed.

Lemma baseline_never_returned_witness :
  exists result,
    fst (buildFraudInsight Sample.client (Sample.by_intent "pi_orphan" true)
           Sample.start) = inr result
    /\ reason (recommendation result) <>
       "Baseline recommendation before risk analysis.".
Proof.
  eexists. split; [reflexivity|].
  apply (baseline_never_returned Sample.client
           (Sample.by_intent "pi_orphan" true) Sample.start).
  reflexivity.
Defined.

(** A bind whose continuation is specified per value: for a run that
    returns, the trace splits into the part of [m] and the part of [k]. *)
Lemma emits_bind_returned {World A B : Type}
    (P1 : Event -> bool) (Q1 : A -> Prop)
    (P2 : A -> Event -> bool) (Q2 : A -> B -> Prop)
    (m : M World A) (k : A -> M World B) :
  emits P1 Q1 m ->
  (forall a, Q1 a -> emits (P2 a) (Q2 a) (k a)) ->
  forall (s : State World) (b : B),
    fst (bind m k s) = inr b ->
    exists (a : A) (t1 t2 : list Event),
      trace (snd (bind m k s)) = (trace s ++ t1 ++ t2)%list
      /\ forallb P1 t1 = true /\ forallb (P2 a) t2 = true
      /\ Q1 a /\ Q2 a b.
Proof.
  intros Hm Hk s b. destruct (Hm s) as [t1 [Ht1 [Hp1 Hq1]]].
  unfold bind. destruct (m s) as [[e|a] s1]; cbn in *; [discriminate|].
  intros Hrun. specialize (Hq1 a eq_refl).
  destruct (Hk a Hq1 s1) as [t2 [Ht2 [Hp2 Hq2]]].
  exists a, t1, t2. rewrite Ht2, Ht1, <- app_assoc.
  repeat split; auto.
Qed.

(** The second part of [buildFraudInsight], after charge resolution. *)
Lemma after_resolution_concerns {World : Type} (stripe : Stripe World)
    (input : FraudInsightInput) (s : State World)
    (result : FraudInsightResult) :
  fst (buildFraudInsight stripe input s) = inr result ->
  exists (vars : Locals) (t1 t2 : list Event),
    trace (snd (buildFraudInsight stripe input s)) = (trace s ++ t1 ++ t2)%list
    /\ forallb resolving t1 = true
    /\ forallb (concerns_resolved vars) t2 = true
    /\ reports_resolved vars result.
Proof.
  intros Hrun. unfold buildFraudInsight in *.
  eapply (emits_bind_returned resolving resolved concerns_resolved
            reports_resolved) in Hrun;
    [destruct Hrun as [vars [t1 [t2 [Ht [Hp1 [Hp2 [_ Hq]]]]]]];
     exists vars, t1, t2; auto
    |apply resolveCharge_resolved|].
  intros vars [Hradar Hcharge].
  unfold concerns_resolved, reports_resolved.
  destruct (l_charge vars) as [charge|].
  - cbv zeta.
    assert (Hid : (charge_id charge =? charge_id charge)%string = true)
      by apply String.eqb_refl.
    emits_step; [apply emits_call; [exact Hid|auto]|].
    emits_step; [repeat emits_step|].
    emits_step; [destruct (include_events input);
                 [apply emits_call; [cbn; now rewrite Hid|auto]|repeat emits_step]|].
    emits_step; [destruct (refunds charge);
                 [repeat emits_step|
                  destruct (include_events input);
                  [apply emits_call; [cbn; now rewrite Hid|auto]
                  |repeat emits_step]]|].
    emits_step; [repeat emits_step|].
    emits_step; [apply emits_emit; [exact Hid|exact I]|].
    apply emits_ret. cbn.
    destruct Hcharge as [Hc|Hc]; rewrite Hc; [reflexivity|exact Hc].
  - emits_step; [repeat emits_step|].
    apply emits_ret. cbn. exact Hcharge.
Qed.

Lemma in_forallb (P : Event -> bool) (t : list Event) (ev : Event) :
  forallb P t = true -> In ev t -> P ev = true.
Proof. intros Ht Hin. rewrite forallb_forall in Ht. auto. Qed.

(** X6: every request of a run of [buildFraudInsight] names the resolved
    charge. In a run that returns a result with a charge section, each
    early-fraud-warning, dispute and refund list was requested for the [id]
    of that very charge, the two latter with a page of 100; in a run that
    returns a result without charge section none of the three lists was
    requested. *)
Theorem radar_requests_name_the_charge {World : Type} (stripe : Stripe World)
    (input : FraudInsightInput) (s : State World)
    (result : FraudInsightResult) :
  fst (buildFraudInsight stripe input s) = inr result ->
  exists t : list Event,
    trace (snd (buildFraudInsight stripe input s)) = (trace s ++ t)%list
    /\ (forall summary, result_charge result = Some summary ->
        (forall c, In (EvCall (EarlyFraudWarningsList c)) t -> c = cs_id summary)
        /\ (forall c limit, In (EvCall (DisputesList c limit)) t ->
            c = cs_id summary /\ limit = 100)
        /\ (forall c limit, In (EvCall (RefundsList c limit)) t ->
            c = cs_id summary /\ limit = 100))
    /\ (result_charge result = None ->
        (forall c, ~ In (EvCall (EarlyFraudWarningsList c)) t)
        /\ (forall c limit, ~ In (EvCall (DisputesList c limit)) t)
        /\ (forall c limit, ~ In (EvCall (RefundsList c limit)) t)).
Proof.
  intros Hrun.
  destruct (after_resolution_concerns stripe input s result Hrun)
    as [vars [t1 [t2 [Ht [Hp1 [Hp2 Hq]]]]]].
  exists (t1 ++ t2)%list. split; [exact Ht|].
  unfold reports_resolved in Hq. unfold concerns_resolved in Hp2.
  assert (Hsplit : forall ev, In ev (t1 ++ t2)%list ->
                     resolving ev = true
                     \/ match l_charge vars with
                        | Some charge => concerns charge ev
                        | None => match ev with EvLog _ _ => true | _ => false end
                        end = true).
  { intros ev Hin. apply in_app_or in Hin. destruct Hin as [Hin|Hin].
    - left. exact (in_forallb _ _ _ Hp1 Hin).
    - right. exact (in_forallb _ _ _ Hp2 Hin). }
  split.
  - intros summary Hsummary. rewrite Hsummary in Hq.
    destruct (l_charge vars) as [charge|]; [|discriminate].
    injection Hq as ->. cbn [cs_id summarizeCharge].
    split; [|split].
    + intros c Hin. destruct (Hsplit _ Hin) as [Hr|Hc]; [discriminate Hr|].
      now apply String.eqb_eq in Hc.
    + intros c limit Hin. destruct (Hsplit _ Hin) as [Hr|Hc]; [discriminate Hr|].
      cbn in Hc. apply andb_true_iff in Hc. destruct Hc as [Hc Hl].
      apply String.eqb_eq in Hc. apply Z.eqb_eq in Hl. now split.
    + intros c limit Hin. destruct (Hsplit _ Hin) as [Hr|Hc]; [discriminate Hr|].
      cbn in Hc. apply andb_true_iff in Hc. destruct Hc as [Hc Hl].
      apply String.eqb_eq in Hc. apply Z.eqb_eq in Hl. now split.
  - intros Hnone. rewrite Hnone in Hq.
    destruct (l_charge vars) as [charge|]; [discriminate|].
    repeat split; intros; intros Hin;
      destruct (Hsplit _ Hin) as [Hr|Hc]; discriminate.
Qed.

Lemma radar_requests_name_the_charge_witness :
  exists t : list Event,
    trace (snd (buildFraudInsight Sample.client
                  (Sample.by_charge "ch_disputed" true) Sample.start)) = t
    /\ In (EvCall (DisputesList "ch_disputed" 100)) t
    /\ forall c limit, In (EvCall (DisputesList c limit)) t ->
         c = "ch_disputed" /\ limit = 100.
Proof.
  destruct (radar_requests_name_the_charge Sample.client
              (Sample.by_charge "ch_disputed" true) Sample.start _ eq_refl)
    as [t [Ht [Hsome _]]].
  cbn [Sample.start trace app] in Ht.
  exists t. split; [exact Ht|]. split.
  - rewrite <- Ht. vm_compute. do 5 right. now left.
  - intros c limit Hin.
    exact (proj1 (proj2 (Hsome _ eq_refl)) c limit Hin).
Defined.

Lemma buildFraudInsight_reads_only {World : Type} (stripe : Stripe World)
    (input : FraudInsightInput) :
  emits reads_only (fun _ => True) (buildFraudInsight stripe input).
Proof.
  apply (emits_weaken reads_only reads_only insight_consistent (fun _ => True));
    [auto|auto|apply buildFraudInsight_consistent].
Qed.

(** X7: the fraud-insight tool only reads. No run of the handler, whether
    it returns or throws, sends a [refunds.create] request, whatever the
    risk it finds and whatever it recommends. *)
Theorem fraud_insight_never_refunds {World : Type}
    (JSON_stringify : FraudInsightResult -> string) (stripe : Stripe World)
    (input : FraudInsightInput) (s : State World) :
  exists t : list Event,
    trace (snd (stripe_fraud_insight JSON_stringify stripe input s)) =
      (trace s ++ t)%list
    /\ forall params, ~ In (EvCall (RefundsCreate params)) t.
Proof.
  assert (H : emits reads_only (fun _ => True)
                (stripe_fraud_insight JSON_stringify stripe input)).
  { unfold stripe_fraud_insight.
    emits_step; [repeat emits_step|].
    apply emits_try_catch; [|intros e; repeat emits_step].
    emits_step; [repeat emits_step|].
    emits_step; [apply buildFraudInsight_reads_only|].
    repeat emits_step. }
  destruct (H s) as [t [Ht [Hp _]]].
  exists t. split; [exact Ht|].
  intros params Hin. pose proof (in_forallb _ _ _ Hp Hin). discriminate.
Qed.

Lemma buildFraudInsight_lists_no_events {World : Type}
    (stripe : Stripe World) (input : FraudInsightInput) :
  include_events input = false ->
  emits lists_no_events (fun _ => True) (buildFraudInsight stripe input).
Proof.
  intros Hev. unfold buildFraudInsight.
  apply (emits_bind _ resolved).
  { apply (emits_weaken resolving lists_no_events resolved resolved);
      [|auto|apply resolveCharge_resolved].
    intros [level message|[]|]; cbn; congruence. }
  intros vars _.
  destruct (l_charge vars) as [charge|].
  - rewrite Hev. cbv zeta.
    emits_step; [repeat emits_step|].
    emits_step; [repeat emits_step|].
    emits_step; [repeat emits_step|].
    emits_step; [repeat emits_step|].
    emits_step; [repeat emits_step|].
    emits_step; [apply emits_emit; [reflexivity|exact I]|].
    apply emits_ret. exact I.
  - emits_step; [repeat emits_step|].
    apply emits_ret. exact I.
Qed.

(** X8: with [include_events = false] neither the disputes nor the refunds
    are fetched, so what [disputes.list] and [refunds.list] would answer
    cannot show: no run sends either request, and the run (the result or
    the exception, the upstream state, the trace) is the same whatever the
    two endpoints answer. *)
Theorem without_events_lists_unused {World : Type}
    (stripe : Stripe World) (input : FraudInsightInput) (s : State World) :
  include_events input = false ->
  (exists t : list Event,
     trace (snd (buildFraudInsight stripe input s)) = (trace s ++ t)%list
     /\ (forall c limit, ~ In (EvCall (RefundsList c limit)) t)
     /\ (forall c limit, ~ In (EvCall (DisputesList c limit)) t))
  /\ (forall disputes_list' refunds_list',
        buildFraudInsight (with_lists stripe disputes_list' refunds_list')
          input s =
        buildFraudInsight stripe input s).
Proof.
  intros Hev. split.
  - destruct (buildFraudInsight_lists_no_events stripe input Hev s)
      as [t [Ht [Hp _]]].
    exists t. split; [exact Ht|].
    split; intros c limit Hin; pose proof (in_forallb _ _ _ Hp Hin);
      discriminate.
  - intros disputes_list' refunds_list'.
    unfold buildFraudInsight. rewrite Hev. reflexivity.
Qed.

Lemma without_events_lists_unused_witness :
  buildFraudInsight
    (with_lists Sample.client
       (fun _ _ w => (inr [Sample.a_dispute; Sample.a_dispute], S w))
       (fun _ _ w => (inl (Sample.not_found "refund"), S w)))
    (Sample.by_charge "ch_disputed" false) Sample.start =
  buildFraudInsight Sample.client (Sample.by_charge "ch_disputed" false)
    Sample.start.
Proof.
  apply (proj2 (without_events_lists_unused Sample.client
                  (Sample.by_charge "ch_disputed" false) Sample.start
                  eq_refl)).
Defined.

(** ** How many requests a run sends *)

Section Counting.

Context {World : Type}.

Lemma calls_app (t1 t2 : list Event) :
  calls (t1 ++ t2) = (calls t1 + calls t2)%nat.
Proof. unfold calls. now rewrite filter_app, length_app. Qed.

Lemma counted_ret {A : Type} (c0 N : nat) (Q : A -> nat -> Prop) (a : A) :
  (c0 <= N)%nat -> Q a c0 -> counted c0 N Q (ret a : M World A).
Proof.
  intros Hc Hq s. exists []. cbn. rewrite app_nil_r, Nat.add_0_r.
  repeat split; auto. now intros a' [= <-].
Qed.

Lemma counted_throw {A : Type} (c0 N : nat) (Q : A -> nat -> Prop)
    (e : Thrown) :
  (c0 <= N)%nat -> counted c0 N Q (throw e : M World A).
Proof.
  intros Hc s. exists []. cbn. rewrite app_nil_r, Nat.add_0_r.
  repeat split; auto. intros a' [=].
Qed.

Lemma counted_bind {A B : Type} (c0 N : nat)
    (Q1 : A -> nat -> Prop) (Q : B -> nat -> Prop)
    (m : M World A) (k : A -> M World B) :
  counted c0 N Q1 m ->
  (forall a c1, Q1 a c1 -> counted c1 N Q (k a)) ->
  counted c0 N Q (bind m k).
Proof.
  intros Hm Hk s. destruct (Hm s) as [t1 [Ht1 [Hc1 Hq1]]].
  unfold bind. destruct (m s) as [[e|a] s1]; cbn in *.
  - exists t1. repeat split; auto. intros b [=].
  - destruct (Hk a _ (Hq1 a eq_refl) s1) as [t2 [Ht2 [Hc2 Hq2]]].
    exists (t1 ++ t2)%list.
    rewrite Ht2, Ht1, <- app_assoc, calls_app, Nat.add_assoc.
    repeat split; auto.
Qed.

Lemma counted_emit (c0 N : nat) (Q : unit -> nat -> Prop) (ev : Event) :
  is_call ev = false -> (c0 <= N)%nat -> Q tt c0 ->
  counted c0 N Q (emit ev : M World unit).
Proof.
  intros Hev Hc Hq s. exists [ev]. unfold calls. cbn. rewrite Hev. cbn.
  rewrite Nat.add_0_r. repeat split; auto. now intros [] _.
Qed.

Lemma counted_call {A : Type} (c0 N : nat) (Q : A -> nat -> Prop)
    (c : ApiCall) (request : World -> (Thrown + A) * World) :
  (c0 + 1 <= N)%nat -> (forall a, Q a (c0 + 1)%nat) ->
  counted c0 N Q (call c request).
Proof.
  intros Hc Hq s. exists [EvCall c]. unfold call.
  destruct (request (world s)) as [r w]. cbn.
  repeat split; auto.
Qed.

Lemma counted_bind_log {B : Type} (c0 N : nat) (Q : B -> nat -> Prop)
    (level : LogLevel) (message : string) (k : unit -> M World B) :
  (c0 <= N)%nat -> counted c0 N Q (k tt) ->
  counted c0 N Q (bind (log level message) k).
Proof.
  intros Hc Hk. apply (counted_bind c0 N (fun _ c => c = c0)).
  - now apply counted_emit.
  - intros [] c1 ->. exact Hk.
Qed.

Lemma counted_bind_call {A B : Type} (c0 N : nat) (Q : B -> nat -> Prop)
    (c : ApiCall) (request : World -> (Thrown + A) * World)
    (k : A -> M World B) :
  (c0 + 1 <= N)%nat -> (forall a, counted (c0 + 1) N Q (k a)) ->
  counted c0 N Q (bind (call c request) k).
Proof.
  intros Hc Hk. apply (counted_bind c0 N (fun _ c1 => c1 = (c0 + 1)%nat)).
  - now apply counted_call.
  - intros a c1 ->. apply Hk.
Qed.

End Counting.

Ltac counted_facts :=
  repeat match goal with
         | H : ?x = None -> _, E : ?x = None |- _ => specialize (H E)
         | H : None = None -> _ |- _ => specialize (H eq_refl)
         | H : after_intent _ _ |- _ => destruct H as [? [? ?]]
         | H : after_charge _ _ |- _ => destruct H as [? ?]
         end.

(** One step through a handler body, counting its requests. *)
Ltac counted_step :=
  cbv zeta; counted_facts;
  lazymatch goal with
  | |- counted _ _ _ (ret _) =>
      apply counted_ret;
      [lia|unfold after_intent, after_charge; cbn;
           repeat split; intros; counted_facts; try discriminate; try lia]
  | |- counted _ _ _ (throw _) => apply counted_throw; lia
  | |- counted _ _ _ (bind (log _ _) _) => apply counted_bind_log; [lia|]
  | |- counted _ _ _ (bind (call _ _) _) =>
      apply counted_bind_call; [lia|intros ?]
  | |- counted _ _ _ (call _ _) =>
      apply counted_call; [lia|intros; try lia]
  | |- counted _ _ _ (match ?x with _ => _ end) =>
      let E := fresh "E" in destruct x eqn:E
  end.

Lemma resolveCharge_counted {World : Type} (stripe : Stripe World)
    (input : FraudInsightInput) (N : nat) :
  (3 <= N)%nat ->
  counted 0 N (fun _ c => (c <= 3)%nat) (resolveCharge stripe input).
Proof.
  intros HN. unfold resolveCharge.
  counted_step.
  apply (counted_bind _ _ after_intent); [repeat counted_step|].
  intros vars1 c1 H1.
  apply (counted_bind _ _ after_charge); [repeat counted_step|].
  intros vars2 c2 H2.
  apply (counted_bind _ _ (fun _ c => (c <= 3)%nat)); [repeat counted_step|].
  intros vars3 c3 H3. repeat counted_step.
Qed.

Lemma counted_bind_emit {World B : Type} (c0 N : nat) (Q : B -> nat -> Prop)
    (ev : Event) (k : unit -> M World B) :
  is_call ev = false -> (c0 <= N)%nat -> counted c0 N Q (k tt) ->
  counted c0 N Q (bind (emit ev) k).
Proof.
  intros Hev Hc Hk. apply (counted_bind c0 N (fun _ c => c = c0)).
  - now apply counted_emit.
  - intros [] c1 ->. exact Hk.
Qed.

Lemma buildFraudInsight_counted {World : Type} (stripe : Stripe World)
    (input : FraudInsightInput) :
  counted 0 (if include_events input then 7 else 5) (fun _ _ => True)
    (buildFraudInsight stripe input).
Proof.
  unfold buildFraudInsight.
  destruct (include_events input);
    (apply (counted_bind _ _ (fun _ c => (c <= 3)%nat));
     [apply resolveCharge_counted; lia|]);
    intros vars c Hc; (destruct (l_charge vars) as [charge|];
                       [|repeat counted_step]); cbv zeta.
  - counted_step.
    apply (counted_bind _ _ (fun _ c' => (c' <= c + 2)%nat));
      [repeat counted_step|intros reviewed c2 H2].
    apply (counted_bind _ _ (fun _ c' => (c' <= c + 3)%nat));
      [repeat counted_step|intros disputeData c3 H3].
    apply (counted_bind _ _ (fun _ c' => (c' <= c + 4)%nat));
      [repeat counted_step|intros refundData c4 H4].
    counted_step.
    apply counted_bind_emit; [reflexivity|lia|].
    apply counted_ret; [lia|exact I].
  - counted_step.
    apply (counted_bind _ _ (fun _ c' => (c' <= c + 2)%nat));
      [repeat counted_step|intros reviewed c2 H2].
    apply (counted_bind _ _ (fun _ c' => (c' <= c + 2)%nat));
      [repeat counted_step|intros disputeData c3 H3].
    apply (counted_bind _ _ (fun _ c' => (c' <= c + 2)%nat));
      [repeat counted_step|intros refundData c4 H4].
    counted_step.
    apply counted_bind_emit; [reflexivity|lia|].
    apply counted_ret; [lia|exact I].
Qed.

(** X9: a run of [buildFraudInsight] sends at most seven Stripe requests,
    and at most five with [include_events = false], whether it returns or
    throws; both bounds are reached (by a client that answers every
    request, asked with both identifiers). *)
Theorem request_budget :
  (forall (World : Type) (stripe : Stripe World) (input : FraudInsightInput)
          (s : State World),
     exists t : list Event,
       trace (snd (buildFraudInsight stripe input s)) = (trace s ++ t)%list
       /\ (calls t <= 7)%nat
       /\ (include_events input = false -> (calls t <= 5)%nat))
  /\ calls (trace (snd (buildFraudInsight Busy.client (Busy.both_ids true)
                          Busy.start))) = 7%nat
  /\ calls (trace (snd (buildFraudInsight Busy.client (Busy.both_ids false)
                          Busy.start))) = 5%nat.
Proof.
  split; [|split; reflexivity].
  intros World stripe input s.
  destruct (buildFraudInsight_counted stripe input s) as [t [Ht [Hc _]]].
  exists t. split; [exact Ht|].
  destruct (include_events input); split; intros; try discriminate; lia.
Qed.

(** ** The two handlers around their Stripe calls *)

Lemma identifier_given (a b : option string) :
  truthy a = true \/ truthy b = true ->
  negb (truthy a) && negb (truthy b) = false.
Proof. destruct (truthy a), (truthy b); intros [H|H]; try reflexivity; discriminate. Qed.

(** X10: the refund tool sends one request and never retries. Given an
    identifier, a run sends exactly one Stripe request, [refunds.create],
    with the non-empty identifiers of the input and its amount, reason and
    metadata as they are; when Stripe answers, the refund it created is
    returned; when Stripe throws, the same exception leaves the handler
    and no second request is made. *)
Theorem refund_tool_sends_one_request {World : Type} (stripe : Stripe World)
    (input : RefundInput) (s : State World) :
  truthy (refund_in_payment_intent_id input) = true
  \/ truthy (refund_in_charge_id input) = true ->
  let params :=
    {| params_payment_intent := as_truthy (refund_in_payment_intent_id input);
       params_charge := as_truthy (refund_in_charge_id input);
       params_amount := refund_in_amount input;
       params_reason := refund_in_reason input;
       params_metadata := refund_in_metadata input |} in
  let run := stripe_create_refund stripe input s in
  let answer := refunds_create stripe params (world s) in
  world (snd run) = snd answer
  /\ filter is_call (trace (snd run)) =
     (filter is_call (trace s) ++ [EvCall (RefundsCreate params)])%list
  /\ match fst answer with
     | inl e => fst run = inl e
     | inr response =>
         exists text,
           fst run =
           inr {| refund_text := text;
                  structured_refund := response_refund response;
                  structured_last_response := lastResponse response |}
     end.
Proof.
  intros Hid. cbv zeta.
  unfold stripe_create_refund. rewrite (identifier_given _ _ Hid).
  unfold bind, try_catch, log, emit, call, ret, throw. cbn.
  destruct (refunds_create stripe _ (world s)) as [[e|response] w]; cbn;
    rewrite ?filter_app; cbn; rewrite ?app_nil_r;
    repeat split; eauto.
Qed.

Lemma refund_tool_sends_one_request_witness :
  filter is_call
    (trace (snd (stripe_create_refund Sample.client Busy.partial_refund
                   Sample.start))) =
  [EvCall (RefundsCreate
             {| params_payment_intent := None;
                params_charge := Some "ch_disputed";
                params_amount := Some 100;
                params_reason := Some fraudulent;
                params_metadata := None |})].
Proof.
  exact (proj1 (proj2 (refund_tool_sends_one_request Sample.client
                         Busy.partial_refund Sample.start
                         (or_intror eq_refl)))).
Defined.

(** X11: the fraud-insight tool adds nothing but logging to
    [buildFraudInsight]. Given an identifier, an exception of
    [buildFraudInsight] leaves the handler unchanged, and a result is
    returned unchanged as the structured content; the upstream state and
    the requests are those of [buildFraudInsight]. *)
Theorem fraud_tool_passes_through {World : Type}
    (JSON_stringify : FraudInsightResult -> string) (stripe : Stripe World)
    (input : FraudInsightInput) (s : State World) :
  truthy (payment_intent_id input) = true
  \/ truthy (charge_id_in input) = true ->
  let run := stripe_fraud_insight JSON_stringify stripe input s in
  let inner :=
    buildFraudInsight stripe input
      {| world := world s;
         trace := (trace s ++ [EvLog info "Invocation received"])%list |} in
  world (snd run) = world (snd inner)
  /\ filter is_call (trace (snd run)) = filter is_call (trace (snd inner))
  /\ match fst inner with
     | inl e => fst run = inl e
     | inr insight =>
         exists text,
           fst run =
           inr {| fraud_text := text; fraud_structuredContent := insight |}
     end.
Proof.
  intros Hid. cbv zeta.
  unfold stripe_fraud_insight. rewrite (identifier_given _ _ Hid).
  generalize (buildFraudInsight stripe input). intros m.
  unfold bind, try_catch, log, emit, ret, throw. cbn [fst snd world trace].
  destruct (m _) as [[e|insight] s1]; cbn [fst snd world trace];
    rewrite ?filter_app; cbn [filter is_call]; rewrite ?app_nil_r;
    repeat split; eauto.
Qed.

Lemma fraud_tool_passes_through_witness :
  exists text insight,
    fst (stripe_fraud_insight (fun _ => "{}") Sample.client
           (Sample.by_charge "ch_disputed" true) Sample.start) =
      inr {| fraud_text := text; fraud_structuredContent := insight |}
    /\ action (recommendation insight) = refund.
Proof.
  destruct (fraud_tool_passes_through (fun _ => "{}") Sample.client
              (Sample.by_charge "ch_disputed" true) Sample.start
              (or_intror eq_refl))
    as [_ [_ [text Hrun]]].
  exists text. eexists. split; [exact Hrun|reflexivity].
Defined.

(** ** The sanitizer in depth *)

Lemma redactedKeys_secretKeys (lowered : string) :
  has secretKeys lowered = false -> has redactedKeys lowered = false.
Proof.
  unfold has, secretKeys, redactedKeys. cbn [existsb].
  destruct (lowered =? "api_key")%string; [discriminate|].
  destruct (lowered =? "apiKey")%string; [discriminate|]. auto.
Qed.

Lemma fold_left_invariant {A B : Type} (Inv : A -> Prop) (f : A -> B -> A)
    (l : list B) (a : A) :
  Inv a -> (forall x y, In y l -> Inv x -> Inv (f x y)) ->
  Inv (fold_left f l a).
Proof.
  revert a. induction l as [|b l IH]; intros a Ha Hf; cbn; [exact Ha|].
  apply IH.
  - apply Hf; [now left|exact Ha].
  - intros x y Hy. apply Hf. now right.
Qed.

Lemma forallb_obj_set (f : string * JsValue -> bool) (obj : JsObj)
    (key : string) (value : JsValue) :
  forallb f obj = true -> f (key, value) = true ->
  forallb f (obj_set obj key value) = true.
Proof.
  unfold obj_set. destruct (key =? "__proto__")%string; [tauto|].
  induction obj as [|[k v] rest IH]; cbn; intros Hobj Hnew.
  - now rewrite Hnew.
  - apply andb_true_iff in Hobj. destruct Hobj as [Hk Hrest].
    destruct (String.eqb_spec k key) as [->|Hne]; cbn.
    + now rewrite Hnew, Hrest.
    + now rewrite Hk, IH.
Qed.

(** The body of the loop of [sanitizeContext]. *)
Lemma sanitizeObject_fold (toLowerCase : string -> string) (entries : JsObj) :
  sanitizeObject toLowerCase (JsObject entries) =
  fold_left
    (fun sanitized kv =>
       obj_set sanitized (fst kv) (assigned toLowerCase (fst kv) (snd kv)))
    entries [].
Proof.
  cbn [sanitizeObject]. apply fold_left_pointwise.
  intros sanitized [key value]. unfold assigned. cbn [fst snd].
  destruct (has secretKeys (toLowerCase key)); [reflexivity|].
  destruct value; reflexivity.
Qed.

(** X12: after [sanitizeContext] no secret is left at any depth reached
    through nested objects: every entry whose lower-cased key is one of
    [api_key], [stripe_api_key], [authorization], [token], [secret] holds
    ['[REDACTED]'], in the context and in every object nested in it. This
    holds for every context and every lower-casing; arrays are not
    entered. *)
Theorem sanitizeContext_redacts_in_depth
    (toLowerCase : string -> string) (context : JsObj) :
  redacted toLowerCase (JsObject (sanitizeContext toLowerCase context)) = true.
Proof.
  unfold sanitizeContext.
  induction (JsObject context) using JsValue_deep_ind; try reflexivity.
  rewrite sanitizeObject_fold. cbn [redacted].
  apply fold_left_invariant; [reflexivity|].
  intros sanitized [key value] Hin Hinv. cbn [fst snd].
  apply forallb_obj_set; [exact Hinv|].
  unfold assigned.
  destruct (has secretKeys (toLowerCase key)) eqn:Hsecret.
  - now destruct (has redactedKeys (toLowerCase key)).
  - rewrite (redactedKeys_secretKeys _ Hsecret).
    rewrite Forall_forall in H. specialize (H _ Hin). cbn [snd] in H.
    destruct value; try reflexivity. exact H.
Qed.

Lemma keys_obj_define (obj : JsObj) (key : string) (value : JsValue) :
  keys (obj_define obj key value) =
  if has (keys obj) key then keys obj else (keys obj ++ [key])%list.
Proof.
  induction obj as [|[k v] rest IH]; cbn; [reflexivity|].
  rewrite (String.eqb_sym key k).
  destruct (String.eqb_spec k key) as [->|Hne]; cbn; [reflexivity|].
  unfold keys, has in *. rewrite IH.
  now destruct (existsb (String.eqb key) (map fst rest)).
Qed.

Lemma has_app (l1 l2 : list string) (key : string) :
  has (l1 ++ l2) key = has l1 key || has l2 key.
Proof. unfold has. apply existsb_app. Qed.

Lemma distinct_snoc (l : list string) (key : string) :
  distinct l = true -> has l key = false -> distinct (l ++ [key]) = true.
Proof.
  induction l as [|k l IH]; cbn; intros Hd Hk; [reflexivity|].
  apply andb_true_iff in Hd. destruct Hd as [Hfresh Hd].
  apply orb_false_iff in Hk. destruct Hk as [Hne Hk].
  rewrite IH by assumption. rewrite has_app. cbn.
  apply negb_true_iff in Hfresh. rewrite Hfresh. cbn.
  rewrite String.eqb_sym, Hne. reflexivity.
Qed.

Lemma distinct_obj_set (obj : JsObj) (key : string) (value : JsValue) :
  distinct (keys obj) = true -> distinct (keys (obj_set obj key value)) = true.
Proof.
  intros Hd. unfold obj_set. destruct (key =? "__proto__")%string; [exact Hd|].
  rewrite keys_obj_define.
  destruct (has (keys obj) key) eqn:Hk; [exact Hd|now apply distinct_snoc].
Qed.

(** What [sanitizeContext] builds has distinct property names. *)
Lemma sanitizeObject_distinct (toLowerCase : string -> string)
    (entries : JsObj) :
  distinct (keys (sanitizeObject toLowerCase (JsObject entries))) = true.
Proof.
  rewrite sanitizeObject_fold.
  apply fold_left_invariant; [reflexivity|].
  intros sanitized kv _ Hd. now apply distinct_obj_set.
Qed.

(** What [sanitizeContext] builds has no property named [__proto__]. *)
Lemma sanitizeObject_copied (toLowerCase : string -> string)
    (entries : JsObj) :
  forallb copied (sanitizeObject toLowerCase (JsObject entries)) = true.
Proof.
  rewrite sanitizeObject_fold.
  apply fold_left_invariant; [reflexivity|].
  intros sanitized [key value] _ Hinv. cbn [fst snd].
  unfold obj_set. destruct (key =? "__proto__")%string eqn:Hkey; [exact Hinv|].
  fold (obj_set sanitized key (assigned toLowerCase key value)).
  replace (obj_define sanitized key (assigned toLowerCase key value))
    with (obj_set sanitized key (assigned toLowerCase key value))
    by (unfold obj_set; now rewrite Hkey).
  apply forallb_obj_set; [exact Hinv|].
  unfold copied. cbn [fst]. now rewrite Hkey.
Qed.

Lemma filter_all {A : Type} (f : A -> bool) (l : list A) :
  forallb f l = true -> filter f l = l.
Proof.
  induction l as [|x l IH]; cbn; [reflexivity|].
  intros H. apply andb_true_iff in H. destruct H as [Hx Hl].
  now rewrite Hx, IH.
Qed.

(** On distinct property names the loop is a map over the entries it
    copies. *)
Lemma sanitizeObject_map (toLowerCase : string -> string) (entries : JsObj) :
  distinct (keys entries) = true ->
  sanitizeObject toLowerCase (JsObject entries) =
  map (fun kv => (fst kv, assigned toLowerCase (fst kv) (snd kv)))
      (filter copied entries).
Proof.
  intros Hd. rewrite sanitizeObject_fold.
  now rewrite (fold_obj_set_fresh (assigned toLowerCase) entries [] Hd)
    by (intros key _ []).
Qed.

Lemma map_fixed {A : Type} (f : A -> A) (l : list A) :
  Forall (fun x => f x = x) l -> map f l = l.
Proof.
  induction 1 as [|x l Hx _ IH]; cbn; [reflexivity|]. now rewrite Hx, IH.
Qed.

Lemma Forall_obj_set (P : string * JsValue -> Prop) (obj : JsObj)
    (key : string) (value : JsValue) :
  Forall P obj -> P (key, value) -> Forall P (obj_set obj key value).
Proof.
  unfold obj_set. destruct (key =? "__proto__")%string; [tauto|].
  induction 1 as [|[k v] rest Hk Hrest IH]; cbn; intros Hnew.
  - constructor; [exact Hnew|constructor].
  - destruct (String.eqb_spec k key) as [->|Hne]; constructor; auto.
Qed.

(** X13: [sanitizeContext] is idempotent: sanitizing a sanitized context
    changes nothing, for every context and every lower-casing. *)
Theorem sanitizeContext_idempotent
    (toLowerCase : string -> string) (context : JsObj) :
  sanitizeContext toLowerCase (sanitizeContext toLowerCase context) =
  sanitizeContext toLowerCase context.
Proof.
  unfold sanitizeContext.
  induction (JsObject context) using JsValue_deep_ind; try reflexivity.
  rewrite (sanitizeObject_map toLowerCase
             (sanitizeObject toLowerCase (JsObject entries)))
    by apply sanitizeObject_distinct.
  rewrite (filter_all copied _ (sanitizeObject_copied toLowerCase entries)).
  apply map_fixed.
  rewrite sanitizeObject_fold.
  apply fold_left_invariant; [constructor|].
  intros sanitized [key value] Hin Hinv. cbn [fst snd].
  rewrite Forall_forall in H. specialize (H _ Hin). cbn [snd] in H.
  apply Forall_obj_set; [exact Hinv|]. cbn [fst snd]. f_equal.
  unfold assigned.
  destruct (has secretKeys (toLowerCase key)); [reflexivity|].
  destruct value; try reflexivity.
  now rewrite H.
Qed.

Lemma sanitizeObject_same_but_secrets (toLowerCase : string -> string)
    (v1 : JsValue) :
  forall v2, same_but_secrets toLowerCase v1 v2 ->
             sanitizeObject toLowerCase v1 = sanitizeObject toLowerCase v2.
Proof.
  induction v1 using JsValue_deep_ind; intros v2 Hsame;
    try (destruct v2; cbn in Hsame; now subst).
  destruct v2 as [| | | | | |entries2]; try discriminate Hsame.
  cbn [same_but_secrets] in Hsame.
  rewrite !sanitizeObject_fold. generalize (@nil (string * JsValue)) as acc.
  revert entries2 Hsame.
  induction H as [|[k1 x1] rest1 Hx _ IH]; intros [|[k2 x2] rest2] Hsame acc;
    try contradiction; [reflexivity|].
  destruct Hsame as [<- [Hvalue Hrest]]. cbn [fold_left fst snd].
  replace (assigned toLowerCase k1 x2) with (assigned toLowerCase k1 x1);
    [now apply IH|].
  unfold assigned.
  destruct (has secretKeys (toLowerCase k1)) eqn:Hsecret; [reflexivity|].
  destruct Hvalue as [Hredacted|Hvalue].
  { rewrite (redactedKeys_secretKeys _ Hsecret) in Hredacted. discriminate. }
  cbn [snd] in Hx. specialize (Hx x2 Hvalue).
  destruct x1; try (destruct x2; cbn in Hvalue; now subst).
  destruct x2; try discriminate Hvalue. now rewrite Hx.
Qed.

(** X14: what is stored under a secret key has no influence on the
    sanitized context. Two contexts with the same keys in the same order
    that differ only in the values stored under [api_key],
    [stripe_api_key], [authorization], [token] or [secret] (in any case of
    letters), in the context or in an object nested in it, are sanitized to
    the same context. *)
Theorem secrets_do_not_show
    (toLowerCase : string -> string) (context1 context2 : JsObj) :
  same_but_secrets toLowerCase (JsObject context1) (JsObject context2) ->
  sanitizeContext toLowerCase context1 = sanitizeContext toLowerCase context2.
Proof.
  intros Hsame. unfold sanitizeContext.
  now apply sanitizeObject_same_but_secrets.
Qed.

Lemma secrets_do_not_show_witness :
  sanitizeContext toLowerCase_ascii Sample.context =
  sanitizeContext toLowerCase_ascii Busy.context.
Proof.
  apply (secrets_do_not_show toLowerCase_ascii Sample.context Busy.context).
  cbn.
  split; [reflexivity|]. split; [left; reflexivity|].
  split; [reflexivity|]. split; [right; reflexivity|].
  split; [reflexivity|]. split.
  { right. split; [reflexivity|]. split; [left; reflexivity|].
    split; [reflexivity|]. split; [right; reflexivity|]. exact I. }
  split; [reflexivity|]. split; [right; reflexivity|]. exact I.
Defined.

Lemma sanitizeObject_plain (toLowerCase : string -> string) (value : JsValue) :
  plain toLowerCase value = true ->
  forall entries, value = JsObject entries ->
                  sanitizeObject toLowerCase value = entries.
Proof.
  induction value using JsValue_deep_ind; intros Hplain ? [=]. subst.
  cbn [plain] in Hplain. apply andb_true_iff in Hplain.
  destruct Hplain as [Hd Hentries].
  rewrite (sanitizeObject_map toLowerCase _ Hd).
  rewrite forallb_forall in Hentries.
  rewrite filter_all.
  2:{ apply forallb_forall. intros [key nested] Hin.
      specialize (Hentries _ Hin).
      change (negb (has secretKeys (toLowerCase key))
              && negb (key =? "__proto__")%string
              && plain toLowerCase nested = true) in Hentries.
      apply andb_true_iff in Hentries. destruct Hentries as [Hkey _].
      apply andb_true_iff in Hkey. now destruct Hkey as [_ Hkey]. }
  apply map_fixed. apply Forall_forall. intros [key nested] Hin.
  rewrite Forall_forall in H. specialize (H _ Hin). cbn [snd] in H.
  specialize (Hentries _ Hin).
  change (negb (has secretKeys (toLowerCase key))
          && negb (key =? "__proto__")%string
          && plain toLowerCase nested = true) in Hentries.
  apply andb_true_iff in Hentries. destruct Hentries as [Hkey Hnested].
  apply andb_true_iff in Hkey. destruct Hkey as [Hkey _].
  apply negb_true_iff in Hkey.
  cbn [fst snd]. f_equal. unfold assigned. rewrite Hkey.
  destruct nested; try reflexivity.
  now rewrite (H Hnested _ eq_refl).
Qed.

(** X15: a context without secret keys is logged as it is. When no key of
    the context or of an object nested in it is in [secretKeys] once
    lower-cased, and none is [__proto__] (property names being distinct),
    [sanitizeContext] returns the context unchanged. *)
Theorem plain_context_unchanged
    (toLowerCase : string -> string) (context : JsObj) :
  plain toLowerCase (JsObject context) = true ->
  sanitizeContext toLowerCase context = context.
Proof.
  intros Hplain. unfold sanitizeContext.
  now apply (sanitizeObject_plain toLowerCase (JsObject context) Hplain).
Qed.

Lemma plain_context_unchanged_witness :
  sanitizeContext toLowerCase_ascii Busy.plain_context = Busy.plain_context.
Proof.
  apply (plain_context_unchanged toLowerCase_ascii Busy.plain_context).
  reflexivity.
Defined.

(** ** The logger *)

Section LoggerFacts.

Variable toLowerCase : string -> string.
Variable JSON_stringify : JsValue -> string.

Lemma same_but_secrets_length (entries1 entries2 : JsObj) :
  same_but_secrets toLowerCase (JsObject entries1) (JsObject entries2) ->
  length (keys entries1) = length (keys entries2).
Proof.
  cbn [same_but_secrets]. revert entries2.
  induction entries1 as [|[k1 x1] rest1 IH]; intros [|[k2 x2] rest2] Hsame;
    try contradiction; [reflexivity|].
  destruct Hsame as [_ [_ Hrest]]. cbn. f_equal. now apply IH.
Qed.

Lemma Logger_log_written (this : Logger) (now : string) (level : LogLevel)
    (message : string) (context : option JsObj) :
  levelPriority (logger_level this) <= levelPriority level ->
  exists line,
    Logger_log toLowerCase JSON_stringify this now level message context =
    [(match level with
      | debug | info => console_log
      | warn => console_warn
      | error => console_error
      end, line)].
Proof.
  intros Hle. unfold Logger_log.
  replace (levelPriority level <? levelPriority (logger_level this)) with false
    by (symmetry; apply Z.ltb_ge; exact Hle).
  destruct level; eexists; reflexivity.
Qed.

End LoggerFacts.

Lemma Logger_log_dropped (toLowerCase : string -> string)
    (JSON_stringify : JsValue -> string) (this : Logger) (now : string)
    (level : LogLevel) (message : string) (context : option JsObj) :
  levelPriority level < levelPriority (logger_level this) ->
  Logger_log toLowerCase JSON_stringify this now level message context = [].
Proof.
  intros Hlt. unfold Logger_log.
  now replace (levelPriority level <? levelPriority (logger_level this))
    with true by (symmetry; apply Z.ltb_lt; exact Hlt).
Qed.

(** X16: the level of a logger is a threshold in the order
    debug < info < warn < error. A logger set to [debug] writes every
    message; set to [info] it drops debug messages only; set to [warn] it
    drops debug and info messages; set to [error] it writes errors only. A
    message that is written is one line, sent to [console.log] for debug
    and info, to [console.warn] for warn and to [console.error] for error.
    So a logger set to a lower level writes every line a logger of the same
    name set to a higher level writes, and an error is written whatever the
    level. *)
Theorem logger_level_is_a_threshold
    (toLowerCase : string -> string) (JSON_stringify : JsValue -> string)
    (name : option string) (now : string) (level : LogLevel)
    (message : string) (context : option JsObj) :
  let write threshold :=
    Logger_log toLowerCase JSON_stringify (mkLogger threshold name) now level
      message context in
  (forall threshold,
     match threshold, level with
     | info, debug
     | warn, debug | warn, info
     | error, debug | error, info | error, warn => write threshold = []
     | _, _ =>
         exists line,
           write threshold =
           [(match level with
             | debug | info => console_log
             | warn => console_warn
             | error => console_error
             end, line)]
     end)
  /\ (forall lower higher,
        match lower, higher with
        | debug, _
        | info, info | info, warn | info, error
        | warn, warn | warn, error
        | error, error => write higher = [] \/ write lower = write higher
        | _, _ => True
        end)
  /\ (level = error -> forall threshold, write threshold <> []).
Proof.
  cbv zeta. split; [|split].
  - intros threshold.
    destruct threshold, level;
      first [ apply Logger_log_dropped; cbn; lia
            | apply Logger_log_written; cbn; lia ].
  - intros lower higher.
    destruct lower, higher; try exact I;
      destruct level;
      first [ left; apply Logger_log_dropped; cbn; lia
            | right; reflexivity ].
  - intros -> threshold.
    destruct (Logger_log_written toLowerCase JSON_stringify
                (mkLogger threshold name) now error message context)
      as [line Hline].
    + destruct threshold; cbn; lia.
    + rewrite Hline. discriminate.
Qed.

Lemma logger_level_is_a_threshold_witness :
  Logger_log toLowerCase_ascii (fun _ => "line") (new_Logger None None)
    "2024-01-01T00:00:00.000Z" debug "Building fraud insight" None = []
  /\ (exists line,
        Logger_log toLowerCase_ascii (fun _ => "line") (new_Logger None None)
          "2024-01-01T00:00:00.000Z" info "Invocation received" None =
        [(console_log, line)])
  /\ Logger_log toLowerCase_ascii (fun _ => "line") (mkLogger error None)
       "2024-01-01T00:00:00.000Z" warn "Stripe raw error captured" None = []
  /\ (exists line,
        Logger_log toLowerCase_ascii (fun _ => "line") (mkLogger warn None)
          "2024-01-01T00:00:00.000Z" warn "Stripe raw error captured" None =
        [(console_warn, line)]).
Proof.
  split; [|split; [|split]].
  - exact (proj1 (logger_level_is_a_threshold toLowerCase_ascii
                    (fun _ => "line") None "2024-01-01T00:00:00.000Z" debug
                    "Building fraud insight" None) info).
  - exact (proj1 (logger_level_is_a_threshold toLowerCase_ascii
                    (fun _ => "line") None "2024-01-01T00:00:00.000Z" info
                    "Invocation received" None) info).
  - exact (proj1 (logger_level_is_a_threshold toLowerCase_ascii
                    (fun _ => "line") None "2024-01-01T00:00:00.000Z" warn
                    "Stripe raw error captured" None) error).
  - exact (proj1 (logger_level_is_a_threshold toLowerCase_ascii
                    (fun _ => "line") None "2024-01-01T00:00:00.000Z" warn
                    "Stripe raw error captured" None) warn).
Defined.

(** X17: what the logger writes does not depend on secrets. Two calls of
    [Logger.log] that differ only in the values their contexts store under
    [api_key], [stripe_api_key], [authorization], [token] or [secret] (in
    any case of letters, in the context or in an object nested in it)
    write the same lines to the same console methods. *)
Theorem logger_output_hides_secrets
    (toLowerCase : string -> string) (JSON_stringify : JsValue -> string)
    (this : Logger) (now : string) (level : LogLevel) (message : string)
    (context1 context2 : JsObj) :
  same_but_secrets toLowerCase (JsObject context1) (JsObject context2) ->
  Logger_log toLowerCase JSON_stringify this now level message (Some context1) =
  Logger_log toLowerCase JSON_stringify this now level message (Some context2).
Proof.
  intros Hsame. unfold Logger_log, sanitizeContext.
  rewrite (same_but_secrets_length toLowerCase _ _ Hsame).
  now rewrite (sanitizeObject_same_but_secrets toLowerCase _ _ Hsame).
Qed.

Lemma logger_output_hides_secrets_witness :
  Logger_log toLowerCase_ascii (fun _ => "line")
    (new_Logger None (Some "stripe-mcp")) "2024-01-01T00:00:00.000Z" warn
    "Stripe raw error captured" (Some Sample.context) =
  Logger_log toLowerCase_ascii (fun _ => "line")
    (new_Logger None (Some "stripe-mcp")) "2024-01-01T00:00:00.000Z" warn
    "Stripe raw error captured" (Some Busy.context).
Proof.
  apply (logger_output_hides_secrets toLowerCase_ascii (fun _ => "line")
           (new_Logger None (Some "stripe-mcp")) "2024-01-01T00:00:00.000Z"
           warn "Stripe raw error captured" Sample.context Busy.context).
  cbn.
  split; [reflexivity|]. split; [left; reflexivity|].
  split; [reflexivity|]. split; [right; reflexivity|].
  split; [reflexivity|]. split.
  { right. split; [reflexivity|]. split; [left; reflexivity|].
    split; [reflexivity|]. split; [right; reflexivity|]. exact I. }
  split; [reflexivity|]. split; [right; reflexivity|]. exact I.
Defined.

Lemma append_assoc (a b c : string) : ((a ++ b) ++ c = a ++ (b ++ c))%string.
Proof. induction a as [|x a IH]; cbn; [reflexivity|]. now rewrite IH. Qed.

Lemma append_nonempty (a b : string) : a <> "" -> (a ++ b)%string <> "".
Proof. destruct a; [congruence|discriminate]. Qed.

Lemma truthy_Some (name : string) : name <> "" -> as_truthy (Some name) = Some name.
Proof.
  intros Hne. unfold as_truthy, truthy.
  now replace (name =? "")%string with false by (symmetry; now apply String.eqb_neq).
Qed.

Lemma join_cons (name : string) (path : list string) (childName : string) :
  join ":" ((name ++ ":" ++ childName) :: path) =
  join ":" (name :: childName :: path).
Proof.
  destruct path as [|p rest]; cbn [join]; [reflexivity|].
  now rewrite !append_assoc.
Qed.

Lemma descend_named (toLowerCase : string -> string)
    (JSON_stringify : JsValue -> string) (now : string) (path : list string) :
  forall (level : LogLevel) (name : string),
    name <> "" ->
    descend toLowerCase JSON_stringify (mkLogger level (Some name)) now path =
    mkLogger level (Some (join ":" (name :: path))).
Proof.
  induction path as [|childName path IH]; intros level name Hname;
    [reflexivity|].
  unfold descend in *. cbn [fold_left Logger_child fst logger_level logger_name].
  rewrite (truthy_Some name Hname).
  rewrite IH by (now apply append_nonempty).
  now rewrite join_cons.
Qed.

(** X18: a chain of [child] calls names the logger by the chain. From a
    logger with a non-empty name, the logger reached through the child
    names [n1, ..., nk] is called [name:n1:...:nk], and it has the level of
    the logger the chain started from, so that it writes a message exactly
    when that one does. *)
Theorem child_chain_names_the_logger
    (toLowerCase : string -> string) (JSON_stringify : JsValue -> string)
    (root : Logger) (name now : string) (path : list string) :
  logger_name root = Some name -> name <> "" ->
  let leaf := descend toLowerCase JSON_stringify root now path in
  logger_name leaf = Some (join ":" (name :: path))
  /\ logger_level leaf = logger_level root
  /\ forall time level message context,
       Logger_log toLowerCase JSON_stringify leaf time level message context = []
       <-> Logger_log toLowerCase JSON_stringify root time level message
             context = [].
Proof.
  intros Hroot Hname. cbv zeta. destruct root as [level rootName].
  cbn in Hroot. subst rootName.
  rewrite (descend_named toLowerCase JSON_stringify now path level name Hname).
  split; [reflexivity|]. split; [reflexivity|].
  intros time lvl message context. unfold Logger_log. cbn [logger_level].
  destruct (levelPriority lvl <? levelPriority level); [tauto|].
  destruct lvl; split; discriminate.
Qed.

Lemma child_chain_names_the_logger_witness :
  logger_name
    (descend toLowerCase_ascii (fun _ => "line")
       (new_Logger (Some info) (Some "stripe-mcp")) "2024-01-01T00:00:00.000Z"
       ["tools"; "stripe_fraud_insight"]) =
  Some "stripe-mcp:tools:stripe_fraud_insight".
Proof.
  refine (proj1 (child_chain_names_the_logger toLowerCase_ascii
                   (fun _ => "line")
                   (new_Logger (Some info) (Some "stripe-mcp")) "stripe-mcp"
                   "2024-01-01T00:00:00.000Z"
                   ["tools"; "stripe_fraud_insight"] eq_refl _)).
  discriminate.
Defined.

(** ** The raw request tool *)

Section RawRequestFacts.

Context {World : Type}.
Variable URLSearchParams_toString : list (string * string) -> string.
Variable JSON_stringify : JsObj -> string.
Variable as_StripeError : Thrown -> option StripeErrorInfo.
Variable rawRequest :
  Method -> string -> option JsObj -> RequestOptions ->
  World -> (Thrown + RawResponse) * World.

(** A run of the handler around its one request. *)
Lemma stripe_raw_request_run (defaultStripeAccount : option string)
    (input : RawRequestInput) (s : State World) :
  let run :=
    stripe_raw_request URLSearchParams_toString JSON_stringify as_StripeError
      rawRequest defaultStripeAccount input s in
  let sent :=
    rawRequest (raw_method input) (requestPath URLSearchParams_toString input)
      (requestParams input) (requestOptions defaultStripeAccount input)
      (world s) in
  world (snd run) = snd sent
  /\ match fst sent with
     | inr response =>
         exists text,
           fst run =
           inr {| raw_text := text;
                  raw_structuredContent :=
                    RawCompleted (statusCode (raw_lastResponse response))
                      (response_headers (raw_lastResponse response))
                      (requestId (raw_lastResponse response))
                      (response_apiVersion (raw_lastResponse response))
                      (response_idempotencyKey (raw_lastResponse response))
                      (response_stripeAccount (raw_lastResponse response))
                      (responseData response);
                  isError := false |}
     | inl e =>
         match as_StripeError e with
         | Some stripeError =>
             exists text,
               fst run =
               inr {| raw_text := text;
                      raw_structuredContent :=
                        RawFailed (error_statusCode stripeError)
                          (error_type stripeError) (error_code stripeError)
                          (error_headers stripeError)
                          (error_message stripeError)
                          (error_requestId stripeError);
                      isError := true |}
         | None => fst run = inl e
         end
     end.
Proof.
  cbv zeta. unfold stripe_raw_request.
  unfold bind, try_catch, log, emit, await_raw, ret, throw.
  cbn [fst snd world trace].
  destruct (rawRequest _ _ _ _ (world s)) as [[e|response] w];
    cbn [fst snd world trace].
  - destruct (as_StripeError e); cbn [fst snd world trace]; eauto.
  - eauto.
Qed.

End RawRequestFacts.

(** X19: the raw request tool sends one request and turns a Stripe error
    into a result. A run applies [stripe.rawRequest] once, to the method
    given, the path, the parameters and the options computed from the
    input. When Stripe answers, the result carries the status, headers,
    request id and data of the answer and is not an error; when the request
    throws a [StripeError], the handler does not throw but returns a result
    with [isError = true] and the status, type, code and message of the
    error; any other exception leaves the handler unchanged. *)
Theorem raw_request_outcomes {World : Type}
    (URLSearchParams_toString : list (string * string) -> string)
    (JSON_stringify : JsObj -> string)
    (as_StripeError : Thrown -> option StripeErrorInfo)
    (rawRequest : Method -> string -> option JsObj -> RequestOptions ->
                  World -> (Thrown + RawResponse) * World)
    (defaultStripeAccount : option string)
    (input : RawRequestInput) (s : State World) :
  let run :=
    stripe_raw_request URLSearchParams_toString JSON_stringify as_StripeError
      rawRequest defaultStripeAccount input s in
  let sent :=
    rawRequest (raw_method input) (requestPath URLSearchParams_toString input)
      (requestParams input) (requestOptions defaultStripeAccount input)
      (world s) in
  world (snd run) = snd sent
  /\ (forall response, fst sent = inr response ->
      exists result,
        fst run = inr result /\ isError result = false
        /\ raw_structuredContent result =
           RawCompleted (statusCode (raw_lastResponse response))
             (response_headers (raw_lastResponse response))
             (requestId (raw_lastResponse response))
             (response_apiVersion (raw_lastResponse response))
             (response_idempotencyKey (raw_lastResponse response))
             (response_stripeAccount (raw_lastResponse response))
             (responseData response))
  /\ (forall e stripeError,
        fst sent = inl e -> as_StripeError e = Some stripeError ->
        exists result,
          fst run = inr result /\ isError result = true
          /\ raw_structuredContent result =
             RawFailed (error_statusCode stripeError) (error_type stripeError)
               (error_code stripeError) (error_headers stripeError)
               (error_message stripeError) (error_requestId stripeError))
  /\ (forall e, fst sent = inl e -> as_StripeError e = None ->
        fst run = inl e).
Proof.
  cbv zeta.
  pose proof (stripe_raw_request_run URLSearchParams_toString JSON_stringify
                as_StripeError rawRequest defaultStripeAccount input s)
    as [Hworld Hrun].
  cbv zeta in Hworld, Hrun.
  split; [exact Hworld|]. split; [|split].
  - intros response Hsent. rewrite Hsent in Hrun.
    destruct Hrun as [text Hrun]. eexists. split; [exact Hrun|]. now split.
  - intros e stripeError Hsent Herr. rewrite Hsent, Herr in Hrun.
    destruct Hrun as [text Hrun]. eexists. split; [exact Hrun|]. now split.
  - intros e Hsent Herr. now rewrite Hsent, Herr in Hrun.
Qed.

(** X20: which connected account a raw request is sent for. An explicit
    non-empty [stripe_account] is used whatever the default is; without an
    explicit one the default is used when it is non-empty; and an explicit
    empty [stripe_account] sends the request for no account, even when a
    default is configured. *)
Theorem raw_request_account
    (defaultStripeAccount : option string) (input : RawRequestInput) :
  let sent := stripeAccount (requestOptions defaultStripeAccount input) in
  (forall explicit,
     raw_stripe_account input = Some explicit -> explicit <> "" ->
     sent = Some explicit)
  /\ (raw_stripe_account input = None ->
      forall account,
        defaultStripeAccount = Some account -> account <> "" ->
        sent = Some account)
  /\ (raw_stripe_account input = None ->
      truthy defaultStripeAccount = false -> sent = None)
  /\ (raw_stripe_account input = Some "" -> sent = None).
Proof.
  cbv zeta. unfold requestOptions. cbn [stripeAccount].
  repeat split.
  - intros explicit -> Hne. now apply truthy_Some.
  - intros -> account -> Hne. now apply truthy_Some.
  - intros -> Hdefault. unfold as_truthy. now rewrite Hdefault.
  - intros ->. reflexivity.
Qed.

(** X21: the body and the query never both take effect. A [POST] is sent
    to the path as given with the payload as parameters ([{}] when there is
    none), and what it returns or throws and the upstream state it leaves
    are the same whatever [query] holds; a [GET] or [DELETE] is sent
    without parameters, and what it returns or throws and the upstream
    state it leaves are the same whatever [payload] holds. (The log lines
    are set apart: they record whether a query and a payload were given.) *)
Theorem raw_request_body_or_query {World : Type}
    (URLSearchParams_toString : list (string * string) -> string)
    (JSON_stringify : JsObj -> string)
    (as_StripeError : Thrown -> option StripeErrorInfo)
    (rawRequest : Method -> string -> option JsObj -> RequestOptions ->
                  World -> (Thrown + RawResponse) * World)
    (defaultStripeAccount : option string)
    (method : Method) (path : string)
    (query query' : option (list (string * QueryValue)))
    (payload payload' : option JsObj)
    (key account version : option string) (s : State World) :
  let input q p := mkRawRequestInput method path q p key account version in
  let run q p :=
    stripe_raw_request URLSearchParams_toString JSON_stringify as_StripeError
      rawRequest defaultStripeAccount (input q p) s in
  (method = POST ->
   requestPath URLSearchParams_toString (input query payload) = path
   /\ requestParams (input query payload) = Some (nullish payload [])
   /\ fst (run query payload) = fst (run query' payload)
   /\ world (snd (run query payload)) = world (snd (run query' payload)))
  /\ (method <> POST ->
      requestParams (input query payload) = None
      /\ fst (run query payload) = fst (run query payload')
      /\ world (snd (run query payload)) = world (snd (run query payload'))).
Proof.
  cbv zeta. split.
  - intros ->. repeat split.
    + unfold requestPath. cbn. now destruct query.
    + unfold stripe_raw_request, requestPath, requestParams, requestOptions.
      cbn. now destruct query, query'.
    + unfold stripe_raw_request, requestPath, requestParams, requestOptions.
      cbn. now destruct query, query'.
  - intros Hmethod.
    assert (Hpost : is_POST method = false) by (now destruct method).
    split; [|split].
    + unfold requestParams. cbn. now rewrite Hpost.
    + unfold stripe_raw_request, requestPath, requestParams, requestOptions.
      cbn [raw_method raw_path raw_query raw_payload raw_idempotency_key
           raw_stripe_account raw_api_version].
      now rewrite Hpost.
    + unfold stripe_raw_request, requestPath, requestParams, requestOptions.
      cbn [raw_method raw_path raw_query raw_payload raw_idempotency_key
           raw_stripe_account raw_api_version].
      now rewrite Hpost.
Qed.

Lemma raw_request_body_or_query_witness :
  requestParams
    (mkRawRequestInput GET "/v1/charges"
       (Some [("limit", QNumber 3)]) (Some [("ignored", JsBool true)])
       None None None) = None
  /\ requestPath (fun _ => "limit=3")
       (mkRawRequestInput POST "/v1/refunds"
          (Some [("limit", QNumber 3)]) None None None None) = "/v1/refunds".
Proof.
  split.
  - refine (proj1 (proj2 (raw_request_body_or_query (World := unit)
                            (fun _ => "limit=3") (fun _ => "{}")
                            (fun _ => None)
                            (fun _ _ _ _ w =>
                               (inl (JsError "offline"), w))
                            None GET "/v1/charges"
                            (Some [("limit", QNumber 3)]) None
                            (Some [("ignored", JsBool true)]) None
                            None None None
                            {| world := tt; trace := [] |}) _)).
    discriminate.
  - refine (proj1 (proj1 (raw_request_body_or_query (World := unit)
                            (fun _ => "limit=3") (fun _ => "{}")
                            (fun _ => None)
                            (fun _ _ _ _ w =>
                               (inl (JsError "offline"), w))
                            None POST "/v1/refunds"
                            (Some [("limit", QNumber 3)]) None
                            None None None None None
                            {| world := tt; trace := [] |}) eq_refl)).
Defined.

(** ** A charge identifier always resolves *)

Lemma resolveCharge_with_charge_id {World : Type} (stripe : Stripe World)
    (input : FraudInsightInput) :
  truthy (charge_id_in input) = true ->
  emits resolving charge_found (resolveCharge stripe input).
Proof.
  intros Hid. unfold resolveCharge.
  destruct (charge_id_in input) as [id|]; [|discriminate].
  unfold as_truthy at 2. rewrite Hid. cbv beta iota zeta.
  emits_step; [repeat emits_step|].
  apply (emits_bind _ resolved); [repeat resolved_step|].
  intros vars1 H1.
  apply (emits_bind _ charge_found).
  { emits_step; [repeat emits_step|].
    emits_step; [repeat emits_step|].
    emits_step; [repeat emits_step|].
    repeat first
      [ apply emits_ret; unfold charge_found, resolved in *; cbn in *;
        solve [intuition (auto; discriminate)]
      | emits_step ]. }
  intros vars2 [H2 Hfound].
  apply (emits_bind _ charge_found); [|intros; now apply emits_ret].
  destruct (l_charge vars2) as [charge|] eqn:Hcharge; [|contradiction].
  apply emits_ret. unfold charge_found. rewrite Hcharge. split; [exact H2|discriminate].
Qed.

Lemma buildFraudInsight_with_charge_id {World : Type} (stripe : Stripe World)
    (input : FraudInsightInput) :
  truthy (charge_id_in input) = true ->
  emits reads_only (fun result => result_charge result <> None)
    (buildFraudInsight stripe input).
Proof.
  intros Hid. unfold buildFraudInsight.
  apply (emits_bind _ charge_found).
  { apply (emits_weaken resolving reads_only charge_found charge_found);
      [exact resolving_reads_only|auto|now apply resolveCharge_with_charge_id]. }
  intros vars [[Hradar Hcharge] Hfound].
  destruct (l_charge vars) as [charge|]; [|contradiction].
  cbv zeta.
  emits_step; [repeat emits_step|].
  emits_step; [repeat emits_step|].
  emits_step; [repeat emits_step|].
  emits_step; [repeat emits_step|].
  emits_step; [repeat emits_step|].
  emits_step; [apply emits_emit; [reflexivity|exact I]|].
  apply emits_ret. cbn.
  destruct (result_charge (l_result vars)) eqn:E; cbn; rewrite ?E;
    discriminate.
Qed.

(** X22: a charge identifier always leads to an evaluation. When
    [charge_id] is given (non-empty), every result [buildFraudInsight]
    returns has a charge section and a radar section, and its
    recommendation comes from the decision table: the "no charge details
    available" fallback can only be the answer to a lookup by payment
    intent. *)
Theorem charge_id_never_falls_back {World : Type} (stripe : Stripe World)
    (input : FraudInsightInput) (s : State World)
    (result : FraudInsightResult) :
  truthy (charge_id_in input) = true ->
  fst (buildFraudInsight stripe input s) = inr result ->
  exists summary radar,
    result_charge result = Some summary
    /\ result_radar result = Some radar
    /\ recommendation result = recommend_from_radar radar
    /\ reason (recommendation result) <>
       "No charge details available. Review manually before taking action.".
Proof.
  intros Hid Hrun.
  destruct (buildFraudInsight_with_charge_id stripe input Hid s)
    as [t1 [_ [_ Hcharge]]].
  destruct (buildFraudInsight_consistent stripe input s) as [t2 [_ [_ Hq]]].
  specialize (Hcharge result Hrun). specialize (Hq result Hrun).
  unfold insight_consistent in Hq.
  destruct (result_charge result) as [summary|]; [|contradiction].
  destruct (result_radar result) as [radar|]; [|contradiction].
  destruct Hq as [Hq _].
  exists summary, radar. repeat split; auto.
  rewrite Hq.
  pose proof (recommend_from_radar_rows radar) as Hrows.
  destruct (high_risk_reason_head (radar_risk_level radar)
              (nullish (radar_risk_score radar) 0)) as [rest Hhead].
  cbn [In] in Hrows. rewrite Hhead in Hrows.
  destruct Hrows as [<-|[<-|[<-|[<-|[<-|[]]]]]]; discriminate.
Qed.

Lemma charge_id_never_falls_back_witness :
  exists result summary,
    fst (buildFraudInsight Sample.client (Sample.by_charge "ch_disputed" false)
           Sample.start) = inr result
    /\ result_charge result = Some summary
    /\ cs_id summary = "ch_disputed".
Proof.
  destruct (charge_id_never_falls_back Sample.client
              (Sample.by_charge "ch_disputed" false) Sample.start _
              eq_refl eq_refl)
    as [summary [radar [Hsummary _]]].
  eexists. exists summary. split; [reflexivity|]. split; [exact Hsummary|].
  cbn in Hsummary. injection Hsummary as <-. reflexivity.
Defined.

(** ** The fallback without a charge *)

Section EvaluatesLast.

Context {World : Type}.

Lemma evaluates_last_emits {A : Type} (Q : A -> Prop) (m : M World A) :
  emits not_evaluating Q m -> evaluates_last m.
Proof.
  intros Hm s. destruct (Hm s) as [t [Ht [Hp _]]].
  exists t. split; [exact Ht|now left].
Qed.

Lemma evaluates_last_bind {A B : Type} (P : Event -> bool) (Q : A -> Prop)
    (m : M World A) (k : A -> M World B) :
  (forall ev, P ev = true -> not_evaluating ev = true) ->
  emits P Q m -> (forall a, evaluates_last (k a)) ->
  evaluates_last (bind m k).
Proof.
  intros HP Hm Hk s. destruct (Hm s) as [t1 [Ht1 [Hp1 _]]].
  assert (Hquiet : forallb not_evaluating t1 = true).
  { rewrite forallb_forall in *. auto. }
  unfold bind. destruct (m s) as [[e|a] s1]; cbn in *.
  - exists t1. split; [exact Ht1|now left].
  - destruct (Hk a s1) as [t2 [Ht2 Hlast]].
    exists (t1 ++ t2)%list. rewrite Ht2, Ht1, app_assoc.
    split; [reflexivity|].
    destruct Hlast as [Hp2|Hreturned]; [left|now right].
    now rewrite forallb_app, Hquiet, Hp2.
Qed.

Lemma evaluates_last_mark {A : Type} (ev : Event) (a : A) :
  evaluates_last (bind (emit ev) (fun _ => ret a) : M World A).
Proof.
  intros s. exists [ev]. split; [reflexivity|]. right. now exists a.
Qed.

End EvaluatesLast.

Lemma resolving_not_evaluating (ev : Event) :
  resolving ev = true -> not_evaluating ev = true.
Proof. destruct ev as [level message|[]|]; cbn; congruence. Qed.

(** The evaluator is the last step of [buildFraudInsight]: a run that
    throws has not reached it. *)
Lemma buildFraudInsight_evaluates_last {World : Type} (stripe : Stripe World)
    (input : FraudInsightInput) :
  evaluates_last (buildFraudInsight stripe input).
Proof.
  unfold buildFraudInsight.
  apply (evaluates_last_bind resolving radar_unset);
    [exact resolving_not_evaluating|apply resolveCharge_emits|].
  intros vars. destruct (l_charge vars) as [charge|].
  - cbv zeta.
    do 5 (apply (evaluates_last_bind not_evaluating (fun _ => True));
          [auto|solve [repeat emits_step]|intros ?]).
    apply evaluates_last_mark.
  - apply (evaluates_last_emits (fun _ => True)).
    emits_step; [repeat emits_step|]. apply emits_ret. exact I.
Qed.

Lemma not_evaluating_spec (t : list Event) :
  forallb not_evaluating t = true ->
  forall charge warnings disputes, ~ In (EvDerive charge warnings disputes) t.
Proof.
  intros Ht charge warnings disputes Hin.
  rewrite forallb_forall in Ht. specialize (Ht _ Hin). discriminate.
Qed.

(** C7, as stated, fails when no charge can be resolved because the lookup
    fails: for a charge identifier the account does not know,
    [charges.retrieve] throws, and [buildFraudInsight] and the tool return
    no result, with [manual_review] or otherwise: they throw what the
    lookup threw. *)
Lemma lookup_failure_returns_no_result :
  fst (charges_retrieve Sample.client "ch_missing" expand_charge 0%nat) =
    inl (Sample.not_found "charge")
  /\ fst (buildFraudInsight Sample.client (Sample.by_charge "ch_missing" true)
            Sample.start) = inl (Sample.not_found "charge")
  /\ fst (stripe_fraud_insight (fun _ => "{}") Sample.client
            (Sample.by_charge "ch_missing" true) Sample.start) =
     inl (Sample.not_found "charge")
  /\ ~ (exists result,
          fst (buildFraudInsight Sample.client
                 (Sample.by_charge "ch_missing" true) Sample.start) =
            inr result
          /\ action (recommendation result) = manual_review).
Proof.
  split; [reflexivity|]. split; [reflexivity|]. split; [reflexivity|].
  intros [result [Hrun _]]. discriminate Hrun.
Qed.

(** C7: when the lookups of [buildFraudInsight] complete and leave no charge
    (no usable identifier, or a payment intent without latest charge and
    with an empty charge list), it returns a result without charge and
    radar sections whose recommendation is [manual_review] with the reason
    ['No charge details available. Review manually before taking action.'],
    and the run contains no invocation of [deriveRecommendation]. When a
    lookup throws, no result is returned: the exception leaves
    [buildFraudInsight] as it is, and the evaluator is not invoked
    either. *)
Theorem no_charge_forces_manual_review {World : Type} (stripe : Stripe World)
    (input : FraudInsightInput) (s : State World) :
  let run := buildFraudInsight stripe input s in
  exists t : list Event,
    trace (snd run) = (trace s ++ t)%list
    /\ (forall result,
          fst run = inr result -> result_charge result = None ->
          recommendation result =
            {| action := manual_review;
               reason :=
                 "No charge details available. Review manually before taking action." |}
          /\ result_radar result = None
          /\ forall charge warnings disputes,
               ~ In (EvDerive charge warnings disputes) t)
    /\ (forall vars s1,
          resolveCharge stripe input s = (inr vars, s1) ->
          l_charge vars = None ->
          exists result,
            run =
              (inr result,
               {| world := world s1;
                  trace :=
                    (trace s1 ++
                     [EvLog warn "No charge details available for fraud insight"])%list |})
            /\ result_charge result = None)
    /\ (forall e s1,
          resolveCharge stripe input s = (inl e, s1) -> run = (inl e, s1))
    /\ (forall e,
          fst run = inl e ->
          forall charge warnings disputes,
            ~ In (EvDerive charge warnings disputes) t).
Proof.
  cbv zeta.
  destruct (buildFraudInsight_evaluates_last stripe input s) as [t [Ht Hlast]].
  exists t. split; [exact Ht|]. split; [|split; [|split]].
  - intros result Hrun Hnone.
    destruct (buildFraudInsight_consistent stripe input s) as [t' [_ [_ Hq]]].
    specialize (Hq result Hrun). unfold insight_consistent in Hq.
    rewrite Hnone in Hq.
    destruct (result_radar result) as [radar|]; [contradiction|].
    split; [exact Hq|]. split; [reflexivity|].
    destruct (after_resolution_concerns stripe input s result Hrun)
      as [vars [t1 [t2 [Ht12 [Hp1 [Hp2 Hreports]]]]]].
    rewrite Ht in Ht12. apply app_inv_head in Ht12. subst t.
    unfold reports_resolved in Hreports. rewrite Hnone in Hreports.
    unfold concerns_resolved in Hp2.
    destruct (l_charge vars) as [charge|]; [discriminate Hreports|].
    intros charge warnings disputes Hin. apply in_app_or in Hin.
    destruct Hin as [Hin|Hin].
    + exact (resolving_not_derive t1 Hp1 _ _ _ Hin).
    + pose proof (in_forallb _ _ _ Hp2 Hin) as Hlog. discriminate Hlog.
  - intros vars s1 Hres Hnone.
    destruct (resolveCharge_resolved stripe input s) as [t1 [_ [_ Hq]]].
    rewrite Hres in Hq. destruct (Hq vars eq_refl) as [_ Hcharge].
    rewrite Hnone in Hcharge.
    exists (set_recommendation (l_result vars) no_charge_recommendation).
    split; [|exact Hcharge].
    unfold buildFraudInsight, bind at 1. rewrite Hres, Hnone. reflexivity.
  - intros e s1 Hres. now apply lookup_failure_propagates.
  - intros e Hrun. destruct Hlast as [Hquiet|[result Hreturned]].
    + now apply not_evaluating_spec.
    + rewrite Hrun in Hreturned. discriminate Hreturned.
Qed.

Lemma no_charge_forces_manual_review_witness :
  exists result : FraudInsightResult,
    fst (buildFraudInsight Sample.client (Sample.by_intent "pi_orphan" true)
           Sample.start) = inr result
    /\ recommendation result =
       {| action := manual_review;
          reason :=
            "No charge details available. Review manually before taking action." |}
    /\ result_radar result = None.
Proof.
  destruct (no_charge_forces_manual_review Sample.client
              (Sample.by_intent "pi_orphan" true) Sample.start)
    as [t [_ [Hfallback _]]].
  eexists. split; [reflexivity|].
  destruct (Hfallback _ eq_refl eq_refl) as [Hrecommendation [Hradar _]].
  split; [exact Hrecommendation|exact Hradar].
Defined.
